(** * nkdsu: show resolution, canonical redirects and the archive year index

    A shallow embedding of [nkdsu/apps/vote/mixins.py]:
    [LetMemoizeGetObject], [ShowDetailMixin], [ThisShowDetailMixin] and
    [ArchiveList], together with the parts of Python's [datetime] and of
    Django's queryset interface that these views call. *)

From stdpp Require Import base numbers list sorting strings gmap.
From Stdlib Require Import ZArith Lia Ascii String.

Local Open Scope Z_scope.

(** ** Exceptions and results *)

Inductive exn :=
| Http404 (msg : string)
| DoesNotExist
| ValueError
| IndexError
| NotSupportedError.

Inductive result (A : Type) :=
| Ok (a : A)
| Raise (e : exn).
Arguments Ok {A} a.
Arguments Raise {A} e.

#[global] Instance exn_eq_dec : EqDecision exn.
Proof. solve_decision. Defined.

(** ** Calendar dates and datetimes (Python's [datetime] module) *)

Module Py.

Record date := mkdate { year : Z; month : Z; day : Z }.

#[global] Instance date_eq_dec : EqDecision date.
Proof. solve_decision. Defined.

(** A naive datetime: calendar fields and a time of day, no zone. *)
Record naive := mknaive {
  n_date : date;
  n_hour : Z; n_minute : Z; n_second : Z; n_microsecond : Z
}.

(** An aware datetime: the fields as read in its own zone, and the offset
    of that zone from UTC, in seconds. *)
Record datetime := mkdatetime {
  local : naive;
  utcoffset : Z
}.

#[global] Instance naive_eq_dec : EqDecision naive.
Proof. solve_decision. Defined.
#[global] Instance datetime_eq_dec : EqDecision datetime.
Proof. solve_decision. Defined.

(** [datetime.date()] and [datetime.year]. *)
Definition date_of (dt : datetime) : date := n_date (local dt).
Definition year_of (dt : datetime) : Z := year (date_of dt).

Definition _is_leap (y : Z) : bool :=
  (y mod 4 =? 0) && (negb (y mod 100 =? 0) || (y mod 400 =? 0)).

Definition _days_before_year (y : Z) : Z :=
  let y' := y - 1 in y' * 365 + y' / 4 - y' / 100 + y' / 400.

Definition _days_in_month (y m : Z) : Z :=
  if m =? 2 then (if _is_leap y then 29 else 28)
  else if (m =? 4) || (m =? 6) || (m =? 9) || (m =? 11) then 30
  else 31.

Definition _days_before_month (y m : Z) : Z :=
  let table := [0; 31; 59; 90; 120; 151; 181; 212; 243; 273; 304; 334] in
  nth (Z.to_nat (m - 1)) table 0 + (if (2 <? m) && _is_leap y then 1 else 0).

Definition _ymd2ord (d : date) : Z :=
  _days_before_year (year d) + _days_before_month (year d) (month d) + day d.

(** The check made by the [date] constructor (MINYEAR = 1, MAXYEAR = 9999). *)
Definition valid_date (d : date) : bool :=
  (1 <=? year d) && (year d <=? 9999) &&
  (1 <=? month d) && (month d <=? 12) &&
  (1 <=? day d) && (day d <=? _days_in_month (year d) (month d)).

Definition valid_time (n : naive) : bool :=
  (0 <=? n_hour n) && (n_hour n <? 24) &&
  (0 <=? n_minute n) && (n_minute n <? 60) &&
  (0 <=? n_second n) && (n_second n <? 60) &&
  (0 <=? n_microsecond n) && (n_microsecond n <? 1000000).

Definition valid_datetime (dt : datetime) : bool :=
  valid_date (date_of dt) && valid_time (local dt).

(** Microseconds of the naive fields since the start of day 0. *)
Definition naive_micros (n : naive) : Z :=
  (((_ymd2ord (n_date n) * 24 + n_hour n) * 60 + n_minute n) * 60
   + n_second n) * 1000000 + n_microsecond n.

(** The instant an aware datetime denotes, in microseconds on the UTC
    scale. Aware datetimes are ordered and compared by it. *)
Definition timestamp (dt : datetime) : Z :=
  naive_micros (local dt) - utcoffset dt * 1000000.

(** [datetime.datetime(y, m, d)]: midnight at the start of a date. *)
Definition midnight (d : date) : naive := mknaive d 0 0 0 0.

(** [_ord2ymd]: the date with a given ordinal, day 1 being 0001-01-01. *)
Definition _ord2ymd (n : Z) : date :=
  let n := n - 1 in
  let n400 := n / 146097 in
  let n := n mod 146097 in
  let year := n400 * 400 + 1 in
  let n100 := n / 36524 in
  let n := n mod 36524 in
  let n4 := n / 1461 in
  let n := n mod 1461 in
  let n1 := n / 365 in
  let n := n mod 365 in
  let year := year + n100 * 100 + n4 * 4 + n1 in
  if (n1 =? 4) || (n100 =? 4) then mkdate (year - 1) 12 31
  else
    let leapyear := (n1 =? 3) && (negb (n4 =? 24) || (n100 =? 3)) in
    let before m :=
      nth (Z.to_nat (m - 1))
        [0; 31; 59; 90; 120; 151; 181; 212; 243; 273; 304; 334] 0
      + (if (2 <? m) && leapyear then 1 else 0) in
    let days_in m :=
      nth (Z.to_nat (m - 1)) [31; 28; 31; 30; 31; 30; 31; 31; 30; 31; 30; 31] 0
      + (if (m =? 2) && leapyear then 1 else 0) in
    let month := Z.shiftr (n + 50) 5 in
    let preceding := before month in
    if n <? preceding
    then mkdate year (month - 1)
           (n - (preceding - days_in (month - 1)) + 1)
    else mkdate year month (n - preceding + 1).

(** The naive fields that a count of microseconds since the start of day
    0 spells out. *)
Definition of_micros (us : Z) : naive :=
  let s := us / 1000000 in
  let mi := s / 60 in
  let h := mi / 60 in
  mknaive (_ord2ymd (h / 24)) (h mod 24) (mi mod 60) (s mod 60)
    (us mod 1000000).

(** [datetime.astimezone(tz)]: the same instant read in another zone,
    [tz_at] giving the zone's offset from UTC, in seconds, at an instant. *)
Definition astimezone (dt : datetime) (tz_at : Z → Z) : datetime :=
  let offset := tz_at (timestamp dt) in
  mkdatetime (of_micros (timestamp dt + offset * 1000000)) offset.

(** *** [strftime] and [strptime] for the directives the views use *)

Inductive directive := DY | Dm | Dd | Lit (c : ascii).

Definition digit_char (n : Z) : ascii :=
  ascii_of_nat (48 + Z.to_nat n).

Definition digit_val (c : ascii) : option Z :=
  let n := Z.of_nat (nat_of_ascii c) in
  if (48 <=? n) && (n <=? 57) then Some (n - 48) else None.

Definition pad2 (n : Z) (k : string) : string :=
  String (digit_char (n / 10 mod 10)) (String (digit_char (n mod 10)) k).

Definition pad4 (n : Z) (k : string) : string :=
  String (digit_char (n / 1000 mod 10))
    (String (digit_char (n / 100 mod 10)) (pad2 n k)).

(** A non-negative number in decimal, without padding. *)
Fixpoint decimal_go (fuel : nat) (n : Z) (k : string) : string :=
  match fuel with
  | O => k
  | S fuel' =>
      let k' := String (digit_char (n mod 10)) k in
      if n <? 10 then k' else decimal_go fuel' (n / 10) k'
  end.

Definition decimal (n : Z) (k : string) : string :=
  decimal_go (S (Z.to_nat n)) n k.

(** [date.strftime] hands the format to the C library. Linux's writes
    [%Y] as the year in decimal without padding, so a year below 1000 has
    fewer than four digits; [%m] and [%d] are padded to two. *)
Fixpoint strftime (d : date) (format : list directive) : string :=
  match format with
  | [] => ""%string
  | DY :: f => decimal (year d) (strftime d f)
  | Dm :: f => pad2 (month d) (strftime d f)
  | Dd :: f => pad2 (day d) (strftime d f)
  | Lit c :: f => String c (strftime d f)
  end.

(** The regular expression [_strptime] compiles a directive to, run as a
    backtracking matcher: every way the directive can match a prefix of
    the input, in the order the regex engine tries its alternatives, each
    with its value and the unread rest. *)
Definition in_range (lo hi : Z) (c : ascii) : option Z :=
  match digit_val c with
  | Some v => if (lo <=? v) && (v <=? hi) then Some v else None
  | None => None
  end.

(** One alternative made of a fixed-range first character and an
    optional second digit. *)
Definition alt2 (lo1 hi1 lo2 hi2 : Z) (s : string) : list (Z * string) :=
  match s with
  | String a (String b r) =>
      match in_range lo1 hi1 a, in_range lo2 hi2 b with
      | Some x, Some y => [(10 * x + y, r)]
      | _, _ => []
      end
  | _ => []
  end.

Definition alt1 (lo hi : Z) (s : string) : list (Z * string) :=
  match s with
  | String a r =>
      match in_range lo hi a with Some x => [(x, r)] | None => [] end
  | _ => []
  end.

(** [%Y] is [\d\d\d\d]. *)
Definition re_Y (s : string) : list (Z * string) :=
  match s with
  | String a (String b (String c (String d r))) =>
      match digit_val a, digit_val b, digit_val c, digit_val d with
      | Some w, Some x, Some y, Some z =>
          [(1000 * w + 100 * x + 10 * y + z, r)]
      | _, _, _, _ => []
      end
  | _ => []
  end.

(** [%m] is [1[0-2]|0[1-9]|[1-9]]. *)
Definition re_m (s : string) : list (Z * string) :=
  alt2 1 1 0 2 s ++ alt2 0 0 1 9 s ++ alt1 1 9 s.

(** [%d] is [3[01]|[12]\d|0[1-9]|[1-9]| [1-9]]. *)
Definition re_d (s : string) : list (Z * string) :=
  alt2 3 3 0 1 s ++ alt2 1 2 0 9 s ++ alt2 0 0 1 9 s ++ alt1 1 9 s ++
  match s with
  | String " " r => alt1 1 9 r
  | _ => []
  end.

Definition re_lit (c : ascii) (s : string) : list string :=
  match s with
  | String a r => if decide (a = c) then [r] else []
  | _ => []
  end.

(** All matches of a whole format against a prefix of [s], first match
    first; [d] carries the fields found so far. *)
Fixpoint re_match (format : list directive) (d : date) (s : string)
  : list (date * string) :=
  match format with
  | [] => [(d, s)]
  | DY :: f =>
      p ← re_Y s; re_match f (mkdate p.1 (month d) (day d)) p.2
  | Dm :: f =>
      p ← re_m s; re_match f (mkdate (year d) p.1 (day d)) p.2
  | Dd :: f =>
      p ← re_d s; re_match f (mkdate (year d) (month d) p.1) p.2
  | Lit c :: f =>
      r ← re_lit c s; re_match f d r
  end.

(** [datetime.datetime.strptime(data_string, format)]: the first match of
    the format must consume the whole string, and the fields must form a
    date; anything else is a [ValueError]. Fields the format leaves out
    default to 1900-01-01. *)
Definition strptime (data_string : string) (format : list directive)
  : result naive :=
  match re_match format (mkdate 1900 1 1) data_string with
  | [] => Raise ValueError
  | (d, rest) :: _ =>
      if decide (rest = ""%string) then
        if valid_date d then Ok (midnight d) else Raise ValueError
      else Raise ValueError
  end.

End Py.

Import Py.

(** [int(s)] for a [str]: optional surrounding blanks, an optional sign,
    then decimal digits, single underscores allowed between digits. *)
Definition is_space (c : ascii) : bool :=
  let n := nat_of_ascii c in
  (Nat.eqb n 32 || (Nat.leb 9 n && Nat.leb n 13))%bool.

Fixpoint lstrip (s : string) : string :=
  match s with
  | String c r => if is_space c then lstrip r else s
  | EmptyString => s
  end.

Fixpoint int_digits (s : string) (acc : option Z) (after_digit : bool)
  : option Z :=
  match s with
  | EmptyString => if after_digit then acc else None
  | String c r =>
      match digit_val c with
      | Some v => int_digits r (Some (10 * default 0 acc + v)) true
      | None =>
          if after_digit then
            if decide (c = "_"%char) then int_digits r acc false
            else if forallb is_space (list_ascii_of_string s) then acc
            else None
          else None
      end
  end.

Definition int (s : string) : result Z :=
  let body :=
    match lstrip s with
    | String "-" r => Z.opp <$> int_digits r None false
    | String "+" r => int_digits r None false
    | r => int_digits r None false
    end in
  match body with
  | Some n => Ok n
  | None => Raise ValueError
  end.

(** ** The Show model and the queryset operations the views use *)

Record Show := mkShow {
  pk : Z;
  showtime : datetime;
  end_ : datetime
}.

#[global] Instance Show_eq_dec : EqDecision Show.
Proof. solve_decision. Defined.

(** [order_by]: a stable sort on an integer key, ascending; a descending
    order negates the key. Rows that tie on the key stay in table order. *)
Fixpoint insert_by (key : Show → Z) (x : Show) (l : list Show) : list Show :=
  match l with
  | [] => [x]
  | y :: l' =>
      if key x <=? key y then x :: y :: l' else y :: insert_by key x l'
  end.

Fixpoint order_by (key : Show → Z) (qs : list Show) : list Show :=
  match qs with
  | [] => []
  | x :: qs' => insert_by key x (order_by key qs')
  end.

Definition asc (f : Show → datetime) (s : Show) : Z := timestamp (f s).
Definition desc (f : Show → datetime) (s : Show) : Z := - timestamp (f s).

(** The lookups [showtime__gt=t] and [end__lt=t] compare instants. *)
Definition showtime__gt (t : datetime) (s : Show) : Prop :=
  timestamp t < timestamp (showtime s).
Definition end__lt (t : datetime) (s : Show) : Prop :=
  timestamp (end_ s) < timestamp t.

#[global] Instance showtime__gt_dec t s : Decision (showtime__gt t s).
Proof. unfold showtime__gt. apply _. Defined.
#[global] Instance end__lt_dec t s : Decision (end__lt t s).
Proof. unfold end__lt. apply _. Defined.

(** [qs[0]]: the first row, or [IndexError]. *)
Definition index0 (qs : list Show) : result Show :=
  match qs with
  | [] => Raise IndexError
  | s :: _ => Ok s
  end.

(** [distinct('showtime__year')] on a queryset ordered by that column
    keeps the first row of every run of equal years; only some database
    engines have it. *)
Fixpoint distinct_runs (key : Show → Z) (qs : list Show) : list Show :=
  match qs with
  | [] => []
  | x :: qs' =>
      match qs' with
      | [] => [x]
      | y :: _ =>
          if key x =? key y then distinct_runs key qs'
          else x :: distinct_runs key qs'
      end
  end.

Definition distinct (supported : bool) (key : Show → Z) (qs : list Show)
  : result (list Show) :=
  if supported then Ok (distinct_runs key qs) else Raise NotSupportedError.

Definition values_list (key : Show → Z) (qs : list Show) : list Z :=
  key <$> qs.

(** [sorted(set(xs))]. *)
Definition set (xs : list Z) : gset Z := list_to_set xs.
Definition sorted (xs : gset Z) : list Z := merge_sort Z.le (elements xs).

(** ** What the views read from their surroundings *)

Record env := mkenv {
  objects : list Show;            (* the rows of the Show table *)
  now : datetime;                 (* timezone.now() *)
  current_timezone : naive → Z;   (* UTC offset, in seconds, of the
                                     configured zone at a local time *)
  current_timezone_at : Z → Z;    (* the same zone's offset at an instant,
                                     in microseconds on the UTC scale *)
  model_at : datetime → option Show;
                                  (* Show.at(t); None is DoesNotExist *)
  model_current : Show;           (* Show.current() *)
  distinct_on_supported : bool    (* the engine has DISTINCT ON *)
}.

Definition make_aware (n : naive) (tz : naive → Z) : datetime :=
  mkdatetime n (tz n).

(** [showtime__year], in [order_by], [distinct], [values_list] and
    [filter]: the database extracts the year of the showtime read in the
    configured time zone. It need not be the [showtime.year] of the row,
    which Python reads from the datetime as the store returned it. *)
Definition showtime__year (E : env) (s : Show) : Z :=
  year_of (astimezone (showtime s) (current_timezone_at E)).

(** ** View instances and the effects of a request

    A view instance lives for one request. [date] and [object] are the
    attributes [get] assigns; [memo] holds what [@memoize] has stored on
    the instance; [queries] counts the rows fetched from the store. A
    fetched row becomes a fresh Python object: [obj] pairs the row with
    the number of the fetch that built it, which serves as its identity. *)

Definition obj : Type := nat * Show.

Record view := mkview {
  date : option datetime;
  object : option obj;
  memo : gmap string obj;
  queries : nat
}.

Definition new_view : view := mkview None None ∅ 0%nat.

Definition M (A : Type) : Type := view → result A * view.

Definition ret {A} (a : A) : M A := λ v, (Ok a, v).
Definition raise {A} (e : exn) : M A := λ v, (Raise e, v).
Definition bind {A B} (m : M A) (k : A → M B) : M B := λ v,
  match m v with
  | (Ok a, v') => k a v'
  | (Raise e, v') => (Raise e, v')
  end.

Notation "'let!' x := m 'in' k" := (bind m (λ x, k))
  (at level 10, x name, m at level 200, k at level 200).

(** [try: m except e: handler]. *)
Definition try_except {A} (m : M A) (e : exn) (handler : M A) : M A := λ v,
  match m v with
  | (Raise e', v') => if decide (e' = e) then handler v' else (Raise e', v')
  | r => r
  end.

Definition with_object (ob : option obj) (v : view) : view :=
  mkview (date v) ob (memo v) (queries v).

Definition get_date : M (option datetime) := λ v, (Ok (date v), v).
Definition set_date (d : option datetime) : M unit := λ v,
  (Ok (), mkview d (object v) (memo v) (queries v)).
Definition set_object (o : obj) : M unit := λ v,
  (Ok (), with_object (Some o) v).

(** Evaluating a query result builds a new object and counts one fetch. *)
Definition fetch (r : result Show) : M obj := λ v,
  let v' := mkview (date v) (object v) (memo v) (S (queries v)) in
  match r with
  | Ok s => (Ok (queries v, s), v')
  | Raise e => (Raise e, v')
  end.

(** Modelled from the spec: the [memoize] decorator of
    [nkdsu/apps/vote/utils.py], which is not among the sources. The
    producer runs once per key and view instance; later calls with the
    key return the stored object without running the producer. A producer
    that raises stores nothing. *)
Definition memoize (key : string) (producer : M obj) : M obj := λ v,
  match memo v !! key with
  | Some o => (Ok o, v)
  | None =>
      match producer v with
      | (Ok o, v') =>
          (Ok o, mkview (date v') (object v') (<[key := o]> (memo v'))
                   (queries v'))
      | r => r
      end
  end.

(** ** The detail views *)

Inductive view_class := ShowDetailMixin | ThisShowDetailMixin.

Record conf := mkconf {
  cls : view_class;
  view_name : option string;
  default_to_current : bool
}.

Record request := mkrequest {
  namespace : string;       (* request.resolver_match.namespace *)
  url_name : string;        (* request.resolver_match.url_name *)
  query_string : string     (* the part of the URL after the question mark *)
}.

(** A URL as [reverse] builds it: the path of the named pattern filled
    with the keyword arguments. The URL configuration is not among the
    sources, so the path stays symbolic as name and arguments; [reverse]
    is given nothing else and produces no query string. *)
Record url := mkurl {
  url_view : string;
  url_kwargs : gmap string string;
  url_query : string
}.

Definition reverse (name : string) (kwargs : gmap string string) : url :=
  mkurl name kwargs "".

Inductive response :=
| Render (context : gmap string obj)
| Redirect (to : url).

Definition date_fmt : list directive := [DY; Lit "-"; Dm; Lit "-"; Dd].
Definition fallback_fmt : list directive := [Dd; Lit "-"; Dm; Lit "-"; DY].

Section Views.
Variable E : env.
Variable C : conf.

(** The queryset [_get_object] builds before it takes the first row. *)
Definition _get_object_queryset (d : option datetime) : list Show :=
  match d with
  | None =>
      let qs := objects E in
      let qs :=
        if negb (default_to_current C)
        then filter (end__lt (now E)) qs
        else qs in
      order_by (desc end_) qs
  | Some d =>
      let qs := filter (showtime__gt d) (objects E) in
      order_by (asc showtime) qs
  end.

Definition _get_object : M obj :=
  memoize "_get_object" (
    let! d := get_date in
    let qs := _get_object_queryset d in
    try_except (fetch (index0 qs)) IndexError (raise (Http404 ""))).

(** [LetMemoizeGetObject.get_object], as the views call it: with no
    queryset argument. *)
Definition LetMemoizeGetObject_get_object : M obj := _get_object.

Definition ThisShowDetailMixin_get_object : M obj :=
  memoize "get_object" (
    let! d := get_date in
    match d with
    | None =>
        try_except
          (fetch (match model_at E (now E) with
                  | Some s => Ok s
                  | None => Raise DoesNotExist
                  end))
          DoesNotExist (raise (Http404 ""))
    | Some _ => LetMemoizeGetObject_get_object
    end).

Definition get_object : M obj :=
  match cls C with
  | ShowDetailMixin => LetMemoizeGetObject_get_object
  | ThisShowDetailMixin => ThisShowDetailMixin_get_object
  end.

(** [ShowDetailMixin.get_context_data]; the base classes contribute the
    keyword arguments they are given. *)
Definition get_context_data (kwargs : gmap string obj)
  : M (gmap string obj) :=
  let context := kwargs in
  let! o := get_object in
  ret (<["show" := o]> context).

(** [DetailView.get], reached through [super().get]: it looks the
    object up again, builds the context and renders it. *)
Definition DetailView_get : M response :=
  let! o := get_object in
  let! _ := set_object o in
  let! context := get_context_data {["object" := o]} in
  ret (Render context).

Definition get (req : request) (kwargs : gmap string string) : M response :=
  let date_str := kwargs !! "date" in
  let! fell_back :=
    match date_str with
    | None => let! _ := set_date None in ret false
    | Some s =>
        let! p :=
          match strptime s date_fmt with
          | Ok naive_date => ret (naive_date, false)
          | Raise ValueError =>
              match strptime s fallback_fmt with
              | Ok naive_date => ret (naive_date, true)
              | Raise ValueError => raise (Http404 "")
              | Raise e => raise e
              end
          | Raise e => raise e
          end in
        let! _ := set_date (Some (make_aware p.1 (current_timezone E))) in
        ret p.2
    end in
  let! o := get_object in
  let! _ := set_object o in
  let! d := get_date in
  if negb fell_back &&
     match d with
     | Some d => bool_decide (date_of (showtime o.2) = date_of d)
     | None => false
     end
  then DetailView_get
  else
    let new_kwargs := kwargs in
    let name :=
      match view_name C with
      | Some n => if decide (n = "") then
                    namespace req +:+ ":" +:+ url_name req
                  else n
      | None => namespace req +:+ ":" +:+ url_name req
      end in
    let new_kwargs :=
      <["date" := strftime (date_of (showtime o.2)) date_fmt]> new_kwargs in
    ret (Redirect (reverse name new_kwargs)).

End Views.

(** Modelled from the spec: [Show.at] of [nkdsu/apps/vote/models.py],
    which is not among the sources. The current-show lookup finds the
    show whose interval from [showtime] up to but not including [end]
    contains the given instant, the one with the lowest identifier should
    several do, and reports [DoesNotExist] when there is none. *)
Definition in_progress (t : datetime) (s : Show) : Prop :=
  timestamp (showtime s) ≤ timestamp t ∧ timestamp t < timestamp (end_ s).

#[global] Instance in_progress_dec t s : Decision (in_progress t s).
Proof. unfold in_progress. apply _. Defined.

Definition Show_at (rows : list Show) (t : datetime) : option Show :=
  head (order_by pk (filter (in_progress t) rows)).

(** ** The archive view *)

(** [qs.latest('showtime')]. *)
Definition latest (key : Show → Z) (qs : list Show) : result Show :=
  match order_by (λ s, - key s) qs with
  | [] => Raise DoesNotExist
  | s :: _ => Ok s
  end.

Definition no_shows_msg : string := "We don't have shows for that year".

Section ArchiveList.
Variable E : env.
Variable exclude_current : bool.

Definition get_queryset : list Show :=
  let qs := order_by (desc showtime) (objects E) in
  if exclude_current
  then filter (λ s, pk s ≠ pk (model_current E)) qs
  else qs.

Definition get_years : result (list Z) :=
  match
    distinct (distinct_on_supported E) (showtime__year E)
      (order_by (showtime__year E) get_queryset)
  with
  | Ok qs => Ok (values_list (showtime__year E) qs)
  | Raise NotSupportedError =>
      Ok (sorted (set (values_list (showtime__year E)
                         (order_by (showtime__year E) get_queryset))))
  | Raise e => Raise e
  end.

Definition year (kwargs : gmap string string) : result Z :=
  let requested :=
    match kwargs !! "year" with
    | Some s => if decide (s = ""%string) then None else Some s
    | None => None
    end in
  let year :=
    match requested with
    | Some s => int s
    | None =>
        match latest (asc showtime) get_queryset with
        | Ok s => Ok (year_of (showtime s))
        | Raise e => Raise e
        end
    end in
  match year with
  | Ok year =>
      match get_years with
      | Ok years =>
          if bool_decide (year ∈ years) then Ok year
          else Raise (Http404 no_shows_msg)
      | Raise e => Raise e
      end
  | Raise e => Raise e
  end.

End ArchiveList.

(** The two ways [get_years] computes its list. *)
Definition native_years (E : env) (exclude_current : bool) : list Z :=
  values_list (showtime__year E)
    (distinct_runs (showtime__year E)
       (order_by (showtime__year E) (get_queryset E exclude_current))).

Definition fallback_years (E : env) (exclude_current : bool) : list Z :=
  sorted (set (values_list (showtime__year E)
                 (order_by (showtime__year E)
                    (get_queryset E exclude_current)))).

(** ** A small schedule to run the views on *)

Definition utc (n : naive) : Z := 0.

Definition at_ (y m d h mi : Z) : datetime :=
  mkdatetime (mknaive (mkdate y m d) h mi 0 0) 0.

Definition jan5 : Show := mkShow 1 (at_ 2023 1 5 21 0) (at_ 2023 1 5 23 0).
Definition feb10 : Show := mkShow 2 (at_ 2023 2 10 21 0) (at_ 2023 2 10 23 0).

Definition env_of (rows : list Show) (t : datetime) : env :=
  mkenv rows t utc (λ _, 0) (Show_at rows) (default (mkShow 0 t t) (Show_at rows t))
    true.

Definition schedule : env := env_of [jan5; feb10] (at_ 2023 3 1 12 0).

Definition on_air : env := env_of [jan5; feb10] (at_ 2023 2 10 22 0).

Definition midnight_show : Show :=
  mkShow 3 (at_ 2023 1 5 0 0) (at_ 2023 1 5 2 0).
Definition matinee : Show :=
  mkShow 4 (at_ 2023 1 5 14 0) (at_ 2023 1 5 16 0).

Definition midnight_env : env := env_of [midnight_show] (at_ 2023 3 1 12 0).
Definition double_bill : env := env_of [matinee; jan5] (at_ 2023 3 1 12 0).

Definition premiere : env := env_of [feb10] (at_ 2023 2 10 22 0).

(** A show of the year 999, and schedules in zones away from UTC, whose
    rows the store returns in UTC all the same. *)
Definition ancient_show : Show :=
  mkShow 5 (at_ 999 1 5 21 0) (at_ 999 1 5 23 0).

Definition ancient : env := env_of [ancient_show] (at_ 2023 3 1 12 0).

Definition zone_env (offset : Z) (rows : list Show) (t : datetime) : env :=
  mkenv rows t (λ _, offset) (λ _, offset) (Show_at rows)
    (default (mkShow 0 t t) (Show_at rows t)) true.

Definition jan4 : Show := mkShow 6 (at_ 2023 1 4 20 0) (at_ 2023 1 4 22 0).

Definition tokyo_week : env :=
  zone_env 32400 [jan4; jan5] (at_ 2023 3 1 12 0).

Definition new_year_eve : Show :=
  mkShow 7 (at_ 2022 12 31 20 0) (at_ 2022 12 31 22 0).

Definition tokyo_new_year : env :=
  zone_env 32400 [new_year_eve] (at_ 2023 3 1 12 0).

Definition new_year_day : Show :=
  mkShow 8 (at_ 2023 1 1 2 0) (at_ 2023 1 1 4 0).

Definition new_york_new_year : env :=
  zone_env (-18000) [new_year_day] (at_ 2023 3 1 12 0).

Definition ShowDetail : conf := mkconf ShowDetailMixin None false.
Definition ThisShowDetail : conf := mkconf ThisShowDetailMixin None false.

Definition req : request := mkrequest "vote" "show" "".

(** What the [date] keyword argument of a request amounts to: [parses s
    n fell_back] when [get] reads the string [s] as the naive datetime
    [n], with [fell_back] telling whether only the second format fitted. *)
Definition parses (s : string) (n : naive) (fell_back : bool) : Prop :=
  if fell_back
  then strptime s date_fmt = Raise ValueError ∧ strptime s fallback_fmt = Ok n
  else strptime s date_fmt = Ok n.

Definition requested (kwargs : gmap string string)
    (n : option naive) (fell_back : bool) : Prop :=
  match kwargs !! "date" with
  | None => n = None ∧ fell_back = false
  | Some s => ∃ n', n = Some n' ∧ parses s n' fell_back
  end.

(** The name [get] hands to [reverse]. *)
Definition redirect_name (C : conf) (req : request) : string :=
  match view_name C with
  | Some n => if decide (n = "") then namespace req +:+ ":" +:+ url_name req
              else n
  | None => namespace req +:+ ":" +:+ url_name req
  end.

(** [e] is the row [order_by key] puts first: no row has a smaller key,
    and the rows before it in table order have a strictly greater one. *)
Definition earliest (key : Show → Z) (l : list Show) (e : Show) : Prop :=
  ∃ l1 l2, l = l1 ++ e :: l2 ∧
    Forall (λ x, key e < key x) l1 ∧ Forall (λ x, key e ≤ key x) l2.

(** ** The archive page *)

(** The entries [ArchiveList.get_context_data] puts into the context. *)
Record archive_context := mkarchive_context {
  ctx_years : list Z;
  ctx_year : Z;
  ctx_object_list : list Show
}.

(** [ArchiveList.get_context_data]: the dictionary display evaluates
    [get_years()], [year()] and the filtered queryset, which calls
    [year()] once more, in that order. *)
Definition ArchiveList_get_context_data (E : env) (exclude_current : bool)
    (kwargs : gmap string string) : result archive_context :=
  match get_years E exclude_current with
  | Raise e => Raise e
  | Ok years =>
      match year E exclude_current kwargs with
      | Raise e => Raise e
      | Ok y =>
          match year E exclude_current kwargs with
          | Raise e => Raise e
          | Ok y' =>
              Ok (mkarchive_context years y
                    (filter (λ s, showtime__year E s = y')
                       (get_queryset E exclude_current)))
          end
      end
  end.

(** ** Twitter users and their detail view *)

Record TwitterUser := mkTwitterUser {
  user_id : Z;
  screen_name : string;
  updated : datetime;
  vote_set_exists : bool        (* user.vote_set.exists() *)
}.

#[global] Instance TwitterUser_eq_dec : EqDecision TwitterUser.
Proof. solve_decision. Defined.

(** The TwitterUser table, with the two lookups the view filters by as
    the database evaluates them: [user_id=value] on the string the URL
    supplies, and the case-insensitive [screen_name__iexact=value]. *)
Record user_store := mkuser_store {
  users : list TwitterUser;
  user_id_is : string → TwitterUser → bool;
  screen_name__iexact : string → TwitterUser → bool
}.

(** The further exceptions these lookups, and the forms, can end in. *)
Inductive lookup_exn :=
| Std (e : exn)
| KeyError (key : string)
| MultipleObjectsReturned
| ValidationError (messages : list string).

Inductive outcome (A : Type) :=
| Returns (a : A)
| Raises (e : lookup_exn).
Arguments Returns {A} a.
Arguments Raises {A} e.

(** [order_by] on the TwitterUser table: a stable ascending sort. *)
Fixpoint insert_user_by (key : TwitterUser → Z) (x : TwitterUser)
    (l : list TwitterUser) : list TwitterUser :=
  match l with
  | [] => [x]
  | y :: l' =>
      if key x <=? key y then x :: y :: l' else y :: insert_user_by key x l'
  end.

Fixpoint users_order_by (key : TwitterUser → Z) (qs : list TwitterUser)
  : list TwitterUser :=
  match qs with
  | [] => []
  | x :: qs' => insert_user_by key x (users_order_by key qs')
  end.

(** [get_object_or_404(model, **lookup)]: [QuerySet.get], with
    [DoesNotExist] turned into a 404. *)
Definition get_object_or_404 (matching : list TwitterUser)
  : outcome TwitterUser :=
  match matching with
  | [] => Raises (Std (Http404 "No TwitterUser matches the given query."))
  | [u] => Returns u
  | _ => Raises MultipleObjectsReturned
  end.

(** A view instance for Twitter users: its [kwargs], and what [@memoize]
    has stored on it. *)
Record user_view := mkuser_view {
  uv_kwargs : gmap string string;
  uv_memo : gmap string TwitterUser
}.

(** Modelled from the spec: [memoize], as for the show views, on a view
    that holds Twitter users. *)
Definition memoize_user (key : string)
    (producer : user_view → outcome TwitterUser) (v : user_view)
  : outcome TwitterUser * user_view :=
  match uv_memo v !! key with
  | Some u => (Returns u, v)
  | None =>
      match producer v with
      | Returns u => (Returns u, mkuser_view (uv_kwargs v)
                                   (<[key := u]> (uv_memo v)))
      | r => (r, v)
      end
  end.

(** [TwitterUserDetailMixin._get_object]: by [user_id] when the request
    has a non-empty one, else by [screen_name]. *)
Definition TwitterUserDetailMixin__get_object (D : user_store)
  : user_view → outcome TwitterUser * user_view :=
  memoize_user "_get_object" (λ self,
    let user_id := uv_kwargs self !! "user_id" in
    let by_screen_name :=
      match uv_kwargs self !! "screen_name" with
      | None => Raises (KeyError "screen_name")
      | Some name =>
          let users :=
            filter (λ u, screen_name__iexact D name u = true) (users D) in
          if bool_decide (users = []) then Raises (Std (Http404 ""))
          else
            let user :=
              if Nat.eqb (List.length users) 1 then head users
              else head (users_order_by (λ u, - timestamp (updated u))
                           users) in
            match user with
            | None => Raises (Std IndexError)
            | Some user =>
                if vote_set_exists user then Returns user
                else Raises (Std (Http404 ""))
            end
      end in
    match user_id with
    | Some s =>
        if decide (s = "") then by_screen_name
        else get_object_or_404
               (filter (λ u, user_id_is D s u = true) (users D))
    | None => by_screen_name
    end).

(** ASCII lower-casing, for a store that compares screen names without
    regard to case. *)
Definition lower (s : string) : string :=
  string_of_list_ascii
    ((λ c, let n := nat_of_ascii c in
           if (Nat.leb 65 n && Nat.leb n 90)%bool then ascii_of_nat (n + 32)
           else c) <$> list_ascii_of_string s).

(** Two namesakes to look up: an old account with votes and a newer one
    without. *)
Definition old_account : TwitterUser :=
  mkTwitterUser 7 "Colons" (at_ 2020 1 1 0 0) true.

Definition new_account : TwitterUser :=
  mkTwitterUser 8 "colons" (at_ 2023 1 1 0 0) false.

Definition accounts : user_store :=
  mkuser_store [old_account; new_account]
    (λ s u, match int s with Ok n => Z.eqb n (user_id u) | Raise _ => false end)
    (λ s u, String.eqb (lower s) (lower (screen_name u))).

(** * The forms ([forms.py]) *)

(** [address.lstrip('@')]: the address without its leading [@] signs. *)
Fixpoint lstrip_at (address : string) : string :=
  match address with
  | String c rest =>
      if decide (c = "@"%char) then lstrip_at rest else address
  | EmptyString => address
  end.

(** [email_or_twitter]. [validate_email] tells whether Django's validator
    accepts the address (it raises [ValidationError] otherwise), and
    [get_user] whether Twitter knows the screen name ([tw_api.get_user]
    raises [TweepError] otherwise); the second component lists the screen
    names Twitter has been asked about. *)
Definition email_or_twitter (validate_email get_user : string → bool)
    (address : string) (asked : list string) : outcome unit * list string :=
  if validate_email address then (Returns tt, asked)
  else
    let screen_name := lstrip_at address in
    if get_user screen_name then (Returns tt, asked ++ [screen_name])
    else (Raises (ValidationError
                    ["Enter a valid email address or twitter username"]),
          asked ++ [screen_name]).

(** [RequestForm.clean] on the form's [cleaned_data], which
    [super().clean()] hands over as it is. *)
Definition compulsory : list string :=
  ["trivia"; "trivia_question"; "contact"].

Definition filled (cleaned_data : gmap string string) : list string :=
  (map_to_list
     (filter (λ fx : string * string, (fx.1 ∉ compulsory) ∧ (fx.2 ≠ ""))
        cleaned_data)).*2.

Definition RequestForm_clean (cleaned_data : gmap string string)
  : outcome (gmap string string) :=
  if (List.length (filled cleaned_data) <? 2)%nat
  then Raises (ValidationError
                 ["I'm sure you can give us more information than that."])
  else Returns cleaned_data.

(** A request form filled in with its compulsory fields and the title
    alone, and one that also names the artist. *)
Definition title_only : gmap string string :=
  {[ "trivia" := "madoka"; "trivia_question" := "q"; "contact" := "@colons";
     "title" := "Connect"; "artist" := "" ]}.

Definition title_and_artist : gmap string string :=
  <["artist" := "ClariS"]> title_only.

(** * Properties *)

(** ** [order_by] and [qs[0]] *)

Section OrderBy.
Variable key : Show → Z.

Lemma insert_by_Permutation x l : insert_by key x l ≡ₚ x :: l.
Proof.
  induction l as [|y l IH]; simpl; [done|].
  destruct (key x <=? key y); [done|].
  rewrite IH. apply Permutation_swap.
Qed.

Lemma order_by_Permutation l : order_by key l ≡ₚ l.
Proof.
  induction l as [|x l IH]; simpl; [done|].
  by rewrite insert_by_Permutation, IH.
Qed.

Lemma elem_of_order_by x l : x ∈ order_by key l ↔ x ∈ l.
Proof. by rewrite order_by_Permutation. Qed.

Lemma order_by_nil l : order_by key l = [] ↔ l = [].
Proof.
  split; [|by intros ->].
  intros H. apply Permutation.Permutation_nil. rewrite <- H.
  apply order_by_Permutation.
Qed.

Lemma head_insert_by x l :
  head (insert_by key x l) =
  match head l with
  | Some y => if key x <=? key y then Some x else Some y
  | None => Some x
  end.
Proof. destruct l as [|y l]; simpl; [done|]. by destruct (key x <=? key y). Qed.

Lemma head_order_by_earliest l e :
  head (order_by key l) = Some e → earliest key l e.
Proof.
  revert e. induction l as [|x l IH]; intros e; simpl; [done|].
  rewrite head_insert_by.
  destruct (head (order_by key l)) as [y|] eqn:Hy.
  - destruct (IH y eq_refl) as (l1 & l2 & -> & H1 & H2).
    destruct (key x <=? key y) eqn:Hxy; intros [= <-].
    + apply Z.leb_le in Hxy. exists [], (l1 ++ y :: l2).
      split_and!; [done|constructor|].
      apply Forall_app; split; [|constructor].
      * eapply Forall_impl; [exact H1|]. simpl. lia.
      * done.
      * eapply Forall_impl; [exact H2|]. simpl. lia.
    + apply Z.leb_gt in Hxy. exists (x :: l1), l2.
      split_and!; [done| |done]. by constructor.
  - intros [= <-]. apply head_None, order_by_nil in Hy as ->.
    exists [], []. split_and!; [done|constructor|constructor].
Qed.

Lemma earliest_unique l e e' : earliest key l e → earliest key l e' → e = e'.
Proof.
  intros (l1 & l2 & -> & H1 & H2) (k1 & k2 & Hk & K1 & K2).
  rewrite Forall_forall in H1, H2, K1, K2.
  apply app_eq_inv in Hk as [(m & Hl & Hm)|(m & Hl & Hm)].
  - destruct m as [|z m]; simpl in Hm; injection Hm as Hz Hm; [done|].
    subst z k2 l1.
    assert (key e < key e') by (apply H1; set_solver).
    assert (key e' ≤ key e) by (apply K2; set_solver). lia.
  - destruct m as [|z m]; simpl in Hm; injection Hm as Hz Hm; [done|].
    subst z l2 k1.
    assert (key e' < key e) by (apply K1; set_solver).
    assert (key e ≤ key e') by (apply H2; set_solver). lia.
Qed.

Lemma earliest_head_order_by l e :
    earliest key l e → head (order_by key l) = Some e.
Proof.
  intros He.
  destruct (head (order_by key l)) as [y|] eqn:Hy.
  - f_equal. eapply earliest_unique; [|exact He].
    by apply head_order_by_earliest.
  - apply head_None, order_by_nil in Hy as ->.
    destruct He as (l1 & l2 & Hl & _). by destruct l1.
Qed.

Lemma earliest_elem_of l e : earliest key l e → e ∈ l.
Proof. intros (l1 & l2 & -> & _). set_solver. Qed.

Lemma earliest_le l e x : earliest key l e → x ∈ l → key e ≤ key x.
Proof.
  intros (l1 & l2 & -> & H1 & H2) Hx.
  rewrite Forall_forall in H1. rewrite Forall_forall in H2.
  apply elem_of_app in Hx as [Hx|Hx]; [specialize (H1 _ Hx); lia|].
  apply elem_of_cons in Hx as [->|Hx]; [lia|]. by apply H2.
Qed.

(** A row strictly below every other row is the earliest. *)
Lemma strict_min_earliest l e :
  e ∈ l → (∀ x, x ∈ l → x ≠ e → key e < key x) → earliest key l e.
Proof.
  intros Hin Hmin.
  apply list_elem_of_split_l in Hin as (l1 & l2 & -> & Hn).
  exists l1, l2. split_and!; [done| |]; apply Forall_forall; intros x Hx.
  - apply Hmin; [set_solver|]. intros ->. done.
  - destruct (decide (x = e)) as [->|Hne]; [lia|].
    apply Z.lt_le_incl, Hmin; [set_solver|done].
Qed.

(** Filtering keeps the earliest row when it passes the filter. *)
Lemma earliest_filter (P : Show → Prop) `{∀ x, Decision (P x)} l e :
  earliest key l e → P e → earliest key (filter P l) e.
Proof.
  intros (l1 & l2 & -> & H1 & H2) HP.
  exists (filter P l1), (filter P l2).
  rewrite filter_app, filter_cons_True by done.
  split_and!; [done| |]; apply Forall_forall; intros x Hx;
    apply list_elem_of_filter in Hx as [_ Hx].
  - rewrite Forall_forall in H1. by apply H1.
  - rewrite Forall_forall in H2. by apply H2.
Qed.

Lemma order_by_Sorted l :
  StronglySorted (λ a b, key a ≤ key b) (order_by key l).
Proof.
  induction l as [|x l IH]; simpl; [constructor|].
  induction IH as [|y k Hk IHk Hy]; simpl; [repeat constructor|].
  destruct (key x <=? key y) eqn:Hxy.
  - apply Z.leb_le in Hxy. constructor; [by constructor|].
    constructor; [done|]. eapply Forall_impl; [exact Hy|]. simpl. lia.
  - apply Z.leb_gt in Hxy. constructor; [done|].
    rewrite insert_by_Permutation. constructor; [lia|done].
Qed.

End OrderBy.

(** ** Memoisation and the first lookup of a request *)

Lemma memoize_hit key producer v o :
  memo v !! key = Some o → memoize key producer v = (Ok o, v).
Proof. intros H. unfold memoize. by rewrite H. Qed.

Lemma memoize_stored key producer v o v' :
  memoize key producer v = (Ok o, v') → memo v' !! key = Some o.
Proof.
  unfold memoize. destruct (memo v !! key) as [o'|] eqn:Hk.
  - by intros [= <- <-].
  - destruct (producer v) as [[o'|e] v1]; intros [= <- <-]; simpl.
    apply lookup_insert_eq.
Qed.

Lemma memoize_queries key producer v r v' n :
  (∀ r1 v1, producer v = (r1, v1) → (queries v1 ≤ queries v + n)%nat) →
  memoize key producer v = (r, v') → (queries v' ≤ queries v + n)%nat.
Proof.
  intros Hp. unfold memoize. destruct (memo v !! key) as [o'|].
  - intros [= <- <-]. lia.
  - specialize (Hp (producer v).1 (producer v).2).
    destruct (producer v) as [[o'|e] v1]; intros [= <- <-]; simpl in *;
      by apply Hp.
Qed.

Section ViewLemmas.
Variable E : env.
Variable C : conf.

Lemma _get_object_fresh v :
  memo v !! "_get_object" = None →
  _get_object E C v =
  match index0 (_get_object_queryset E C (date v)) with
  | Ok s =>
      (Ok (queries v, s),
       mkview (date v) (object v)
         (<["_get_object" := (queries v, s)]> (memo v)) (S (queries v)))
  | Raise _ =>
      (Raise (Http404 ""),
       mkview (date v) (object v) (memo v) (S (queries v)))
  end.
Proof.
  intros Hm. unfold _get_object, memoize. rewrite Hm.
  unfold bind, get_date, try_except, fetch, raise.
  by destruct (_get_object_queryset E C (date v)) as [|s qs].
Qed.

Lemma get_object_dated v d :
  date v = Some d → memo v = ∅ →
  (get_object E C v).1 = (_get_object E C v).1.
Proof.
  intros Hd Hm. unfold get_object. destruct (cls C); [done|].
  unfold ThisShowDetailMixin_get_object, LetMemoizeGetObject_get_object.
  unfold memoize at 1. rewrite Hm, lookup_empty.
  unfold bind at 1, get_date. simpl. rewrite Hd.
  by destruct (_get_object E C v) as [[o|e] v1].
Qed.

Lemma get_object_again v o v' ob :
  get_object E C v = (Ok o, v') →
  get_object E C (with_object ob v') = (Ok o, with_object ob v').
Proof.
  unfold get_object, LetMemoizeGetObject_get_object,
    ThisShowDetailMixin_get_object, _get_object.
  destruct (cls C); intros H%memoize_stored; by apply memoize_hit.
Qed.

End ViewLemmas.

(** ** Locating a show by date *)

Lemma index0_order_by_Ok key qs s :
  index0 (order_by key qs) = Ok s ↔ earliest key qs s.
Proof.
  split.
  - intros H. apply head_order_by_earliest.
    destruct (order_by key qs); by inversion H.
  - intros H%earliest_head_order_by.
    destruct (order_by key qs); by inversion H.
Qed.

Lemma index0_order_by_Raise key qs e :
  index0 (order_by key qs) = Raise e ↔ qs = [] ∧ e = IndexError.
Proof.
  rewrite <- (order_by_nil key).
  destruct (order_by key qs); simpl; split.
  - by intros [= <-].
  - by intros [_ ->].
  - done.
  - by intros [? _].
Qed.

(** C4: with a date given, the located show is the one with the smallest
    showtime strictly after midnight of that date in the configured time
    zone; the lookup ends in a 404 exactly when no show starts after that
    instant, and it never ends any other way. *)
Theorem C4_locate_after_midnight E C (d : Py.date) ob n :
  let t := make_aware (midnight d) (current_timezone E) in
  let r := (get_object E C (mkview (Some t) ob ∅ n)).1 in
  (∀ o, r = Ok o →
     o.2 ∈ objects E ∧ showtime__gt t o.2 ∧
     ∀ x, x ∈ objects E → showtime__gt t x →
          timestamp (showtime o.2) ≤ timestamp (showtime x)) ∧
  (r = Raise (Http404 "") ↔ ∀ x, x ∈ objects E → ¬ showtime__gt t x) ∧
  ((∃ o, r = Ok o) ∨ r = Raise (Http404 "")).
Proof.
  intros t r. subst r.
  erewrite get_object_dated by done.
  rewrite _get_object_fresh by done. simpl.
  destruct (index0 _) as [s|e] eqn:Hq.
  - apply index0_order_by_Ok in Hq. split_and!.
    + intros o [= <-]. simpl.
      pose proof (earliest_elem_of _ _ _ Hq) as [Hgt Hin]%list_elem_of_filter.
      split_and!; [done..|].
      intros x Hx Hxt.
      apply (earliest_le _ _ _ x Hq), list_elem_of_filter. done.
    + split; [done|]. intros Hnone.
      apply earliest_elem_of, list_elem_of_filter in Hq as [Hgt Hin].
      by destruct (Hnone _ Hin).
    + left. eauto.
  - apply index0_order_by_Raise in Hq as [Hq _]. split_and!.
    + done.
    + split; [|done]. intros _ x Hx Hgt.
      assert (x ∈ filter (showtime__gt t) (objects E)) as Hin
        by by apply list_elem_of_filter.
      rewrite Hq in Hin. by apply elem_of_nil in Hin.
    + by right.
Qed.

(** ** One request through [get] *)

Ltac step_get :=
  cbv [bind ret raise set_date set_object get_date fst snd].

Section GetLemmas.
Variable E : env.
Variable C : conf.

Lemma get_object_date v r v' : get_object E C v = (r, v') → date v' = date v.
Proof.
  assert (∀ v r v', _get_object E C v = (r, v') → date v' = date v) as Hg.
  { clear. intros v r v'. unfold _get_object, memoize.
    destruct (memo v !! "_get_object"); [by intros [= <- <-]|].
    unfold bind, get_date, try_except, fetch, raise.
    by destruct (_get_object_queryset _ _ _); simpl; intros [= <- <-]. }
  unfold get_object, LetMemoizeGetObject_get_object. destruct (cls C); [apply Hg|].
  unfold ThisShowDetailMixin_get_object, memoize.
  destruct (memo v !! "get_object"); [by intros [= <- <-]|].
  unfold bind at 1, get_date. simpl. destruct (date v) as [d|] eqn:Hd.
  - unfold LetMemoizeGetObject_get_object.
    destruct (_get_object E C v) as [[o|e] v1] eqn:Ho; apply Hg in Ho;
      intros [= <- <-]; simpl; congruence.
  - unfold try_except, fetch, raise.
    destruct (model_at E (now E)); simpl; intros [= <- <-]; simpl; congruence.
Qed.

Lemma with_object_idemp ob ob' v :
  with_object ob (with_object ob' v) = with_object ob v.
Proof. done. Qed.

Lemma DetailView_get_located v o v' :
  get_object E C v = (Ok o, v') →
  DetailView_get E C (with_object (Some o) v') =
  (Ok (Render (<["show" := o]> {["object" := o]})), with_object (Some o) v').
Proof.
  intros Ho. unfold DetailView_get, get_context_data, bind, set_object, ret.
  rewrite (get_object_again _ _ _ _ _ _ Ho). rewrite with_object_idemp.
  by rewrite (get_object_again _ _ _ _ _ _ Ho).
Qed.

Lemma get_located req kwargs v n fell_back o v1 :
  requested kwargs n fell_back →
  let d := (λ n, make_aware n (current_timezone E)) <$> n in
  get_object E C (mkview d (object v) (memo v) (queries v)) = (Ok o, v1) →
  get E C req kwargs v =
  (Ok (if negb fell_back &&
          match d with
          | Some d => bool_decide (date_of (showtime o.2) = date_of d)
          | None => false
          end
       then Render (<["show" := o]> {["object" := o]})
       else Redirect (reverse (redirect_name C req)
              (<["date" := strftime (date_of (showtime o.2)) date_fmt]>
                 kwargs))),
   with_object (Some o) v1).
Proof.
  intros Hreq d Ho. pose proof (get_object_date _ _ _ Ho) as Hd.
  pose proof (DetailView_get_located _ _ _ Ho) as Hrender.
  unfold with_object in Hrender |- *. cbn [date] in Hd.
  unfold get. unfold requested in Hreq.
  destruct (kwargs !! "date") as [s|].
  - destruct Hreq as (n' & -> & Hp). subst d.
    cbn [fmap option_fmap option_map] in *.
    unfold parses in Hp. destruct fell_back.
    + destruct Hp as [-> ->]. step_get. by rewrite Ho.
    + rewrite Hp. step_get. rewrite Ho. cbv [with_object].
      cbn [date object memo queries negb andb]. rewrite Hd in Hrender |- *.
      case_bool_decide; [|done]. apply Hrender.
  - destruct Hreq as [-> ->]. subst d.
    cbn [fmap option_fmap option_map] in *. step_get. rewrite Ho.
    cbv [with_object]. cbn [date object memo queries]. by rewrite Hd.
Qed.

Lemma get_not_located req kwargs v n fell_back e v1 :
  requested kwargs n fell_back →
  let d := (λ n, make_aware n (current_timezone E)) <$> n in
  get_object E C (mkview d (object v) (memo v) (queries v)) = (Raise e, v1) →
  get E C req kwargs v = (Raise e, v1).
Proof.
  intros Hreq d Ho. unfold get. unfold requested in Hreq.
  destruct (kwargs !! "date") as [s|].
  - destruct Hreq as (n' & -> & Hp). subst d. cbn [fmap option_fmap option_map] in *.
    unfold parses in Hp. destruct fell_back.
    + destruct Hp as [-> ->]. step_get. by rewrite Ho.
    + rewrite Hp. step_get. by rewrite Ho.
  - destruct Hreq as [-> ->]. subst d. cbn [fmap option_fmap option_map] in *. step_get. by rewrite Ho.
Qed.

Lemma strptime_cases s f :
  (∃ n, strptime s f = Ok n) ∨ strptime s f = Raise ValueError.
Proof.
  unfold strptime. destruct (re_match _ _ _) as [|[d rest] ?]; [by right|].
  destruct (decide _); [|by right]. destruct (valid_date d); eauto.
Qed.

Lemma get_unparseable req kwargs v s :
  kwargs !! "date" = Some s →
  strptime s date_fmt = Raise ValueError →
  strptime s fallback_fmt = Raise ValueError →
  get E C req kwargs v = (Raise (Http404 ""), v).
Proof. intros Hs H1 H2. unfold get. by rewrite Hs, H1, H2. Qed.

(** Every request either carries a date that [get] can read, or carries
    none, or is answered with a 404 before any show is looked up. *)
Lemma get_cases req kwargs v :
  (∃ n fell_back, requested kwargs n fell_back) ∨
  get E C req kwargs v = (Raise (Http404 ""), v).
Proof.
  unfold requested. destruct (kwargs !! "date") as [s|] eqn:Hs.
  - destruct (strptime_cases s date_fmt) as [[n Hn]|Hn].
    + left. exists (Some n), false, n. done.
    + destruct (strptime_cases s fallback_fmt) as [[n Hm]|Hm].
      * left. exists (Some n), true, n. done.
      * right. by eapply get_unparseable.
  - left. exists None, false. done.
Qed.

Lemma requested_functional kwargs n fb n' fb' :
  requested kwargs n fb → requested kwargs n' fb' → n = n' ∧ fb = fb'.
Proof.
  unfold requested, parses. destruct (kwargs !! "date") as [s|].
  - intros (m & -> & Hm) (m' & -> & Hm').
    destruct fb, fb'; destruct_and?; split; congruence.
  - by intros [-> ->] [-> ->].
Qed.

Lemma get_Ok_inv req kwargs v r v' :
  get E C req kwargs v = (Ok r, v') →
  ∃ n fell_back o v1,
    requested kwargs n fell_back ∧
    let d := (λ n, make_aware n (current_timezone E)) <$> n in
    get_object E C (mkview d (object v) (memo v) (queries v)) = (Ok o, v1) ∧
    v' = with_object (Some o) v1 ∧
    r = if negb fell_back &&
           match d with
           | Some d => bool_decide (date_of (showtime o.2) = date_of d)
           | None => false
           end
        then Render (<["show" := o]> {["object" := o]})
        else Redirect (reverse (redirect_name C req)
               (<["date" := strftime (date_of (showtime o.2)) date_fmt]>
                  kwargs)).
Proof.
  intros Hget. destruct (get_cases req kwargs v) as [(n & fb & Hreq)|Hbad];
    [|congruence].
  exists n, fb.
  destruct (get_object E C
              (mkview ((λ n, make_aware n (current_timezone E)) <$> n)
                 (object v) (memo v) (queries v))) as [[o|e] v1] eqn:Ho.
  - rewrite (get_located _ _ _ _ _ _ _ Hreq Ho) in Hget.
    injection Hget as <- <-. by exists o, v1.
  - rewrite (get_not_located _ _ _ _ _ _ _ Hreq Ho) in Hget. done.
Qed.

Lemma get_object_fresh_queries v r v1 :
  memo v = ∅ → get_object E C v = (r, v1) → queries v1 = S (queries v).
Proof.
  intros Hm.
  assert (∀ r v1, _get_object E C v = (r, v1) → queries v1 = S (queries v))
    as Hg.
  { intros r' v'. rewrite _get_object_fresh by by rewrite Hm.
    by destruct (index0 _); intros [= <- <-]. }
  unfold get_object, LetMemoizeGetObject_get_object.
  destruct (cls C); [apply Hg|].
  unfold ThisShowDetailMixin_get_object, memoize. rewrite Hm, lookup_empty.
  unfold bind at 1, get_date. cbn [fst snd]. destruct (date v) as [d|].
  - unfold LetMemoizeGetObject_get_object.
    destruct (_get_object E C v) as [[o|e] v2] eqn:Ho;
      specialize (Hg _ _ eq_refl); by intros [= <- <-].
  - unfold try_except, fetch, raise.
    by destruct (model_at E (now E)); simpl; intros [= <- <-].
Qed.

End GetLemmas.

(** ** The render-or-redirect decision *)

(** C1, amended: a request is rendered exactly when it carries a date,
    the date was read with the canonical format and it equals the
    calendar date of the located show's showtime; a request that carries
    no date is redirected to the located show's date. *)
Theorem C1_render_iff_canonical_date E C req kwargs r v' :
  get E C req kwargs new_view = (Ok r, v') →
  ∃ o, object v' = Some o ∧
    ((∃ context, r = Render context) ↔
     ∃ s n, kwargs !! "date" = Some s ∧ strptime s date_fmt = Ok n ∧
            date_of (showtime o.2) = n_date n) ∧
    (kwargs !! "date" = None →
     r = Redirect (reverse (redirect_name C req)
           (<["date" := strftime (date_of (showtime o.2)) date_fmt]>
              kwargs))).
Proof.
  intros (n & fb & o & v1 & Hreq & Ho & -> & ->)%get_Ok_inv.
  exists o. split; [done|]. unfold requested, parses in Hreq.
  destruct (kwargs !! "date") as [s|].
  - destruct Hreq as (n' & -> & Hp). cbn [fmap option_fmap option_map].
    split; [|done]. destruct fb; simpl.
    + destruct Hp as [Hp _]. split; [by intros [? ?]|].
      intros (s' & m & [= <-] & Hm & _). congruence.
    + case_bool_decide as Hd; simpl.
      * split; [|by eauto]. intros _. by exists s, n'.
      * split; [by intros [? ?]|].
        intros (s' & m & [= <-] & Hm & Heq). rewrite Hp in Hm.
        injection Hm as <-. done.
  - destruct Hreq as [-> ->]. simpl. split; [|done].
    split; [by intros [? ?]|]. by intros (? & ? & ? & _).
Qed.

Lemma C1_witness :
  ∃ o, object (get schedule ShowDetail req ∅ new_view).2 = Some o ∧
    ((∃ context,
        Redirect (reverse "vote:show" {["date" := "2023-02-10"]})
        = Render context) ↔
     ∃ s n, (∅ : gmap string string) !! "date" = Some s ∧
            strptime s date_fmt = Ok n ∧
            date_of (showtime o.2) = n_date n) ∧
    ((∅ : gmap string string) !! "date" = None →
     Redirect (reverse "vote:show" {["date" := "2023-02-10"]}) =
     Redirect (reverse (redirect_name ShowDetail req)
           (<["date" := strftime (date_of (showtime o.2)) date_fmt]> ∅))).
Proof.
  apply (C1_render_iff_canonical_date schedule ShowDetail req ∅).
  vm_compute. reflexivity.
Defined.

(** C1 as stated fails: a request without a date is not rendered in
    place; it is redirected to the date of the located show. *)
Lemma C1_counterexample :
  (∅ : gmap string string) !! "date" = None ∧
  (get schedule ShowDetail req ∅ new_view).1 =
  Ok (Redirect (reverse "vote:show" {["date" := "2023-02-10"]})).
Proof. split; [done|]. vm_compute. reflexivity. Qed.

(** C9, amended: the redirect goes to the URL reversed for the view's
    name from the request's keyword arguments with only [date] replaced,
    by the canonical date of the located show; every other keyword
    argument is kept, and the target has no query string whatever the
    request's was. *)
Theorem C9_redirect_keeps_other_kwargs E C req kwargs u v' :
  get E C req kwargs new_view = (Ok (Redirect u), v') →
  ∃ o, object v' = Some o ∧
    url_view u = redirect_name C req ∧
    url_kwargs u !! "date" =
      Some (strftime (date_of (showtime o.2)) date_fmt) ∧
    (∀ k, k ≠ "date" → url_kwargs u !! k = kwargs !! k) ∧
    url_query u = "".
Proof.
  intros (n & fb & o & v1 & Hreq & Ho & -> & Hr)%get_Ok_inv.
  exists o. split; [done|].
  destruct (_ && _); [done|]. injection Hr as ->. simpl.
  split_and!; [done|by rewrite lookup_insert_eq| |done].
  intros k Hk. by rewrite lookup_insert_ne.
Qed.

Lemma C9_witness :
  ∃ o, object (get schedule ShowDetail (mkrequest "vote" "show" "page=2")
                 {["date" := "2023-01-20"; "slug" := "x"]} new_view).2
       = Some o ∧
    url_view (reverse "vote:show"
                {["date" := "2023-02-10"; "slug" := "x"]}) =
      redirect_name ShowDetail (mkrequest "vote" "show" "page=2") ∧
    url_kwargs (reverse "vote:show"
                  {["date" := "2023-02-10"; "slug" := "x"]}) !! "date" =
      Some (strftime (date_of (showtime o.2)) date_fmt) ∧
    (∀ k, k ≠ "date" →
       url_kwargs (reverse "vote:show"
                     {["date" := "2023-02-10"; "slug" := "x"]}) !! k =
       ({["date" := "2023-01-20"; "slug" := "x"]} : gmap string string) !! k) ∧
    url_query (reverse "vote:show"
                 {["date" := "2023-02-10"; "slug" := "x"]}) = "".
Proof.
  apply (C9_redirect_keeps_other_kwargs schedule ShowDetail
           (mkrequest "vote" "show" "page=2")).
  vm_compute. reflexivity.
Defined.

(** C9 as stated fails: the query string of the request is not part of
    the redirect target. *)
Lemma C9_counterexample :
  ∃ u, (get schedule ShowDetail (mkrequest "vote" "show" "page=2")
          {["date" := "2023-01-20"]} new_view).1 = Ok (Redirect u) ∧
       url_query u ≠ query_string (mkrequest "vote" "show" "page=2").
Proof. eexists. split; [vm_compute; reflexivity|]. done. Qed.

(** ** One lookup per request *)

(** C8: within one request the show is fetched once. After [get] has
    answered, the view holds the located object, exactly one fetch has
    been made, a rendered context carries that same object as [show] and
    as [object], and further calls of [get_object] and [get_context_data]
    return that same object and leave the view, fetch count included,
    unchanged. *)
Theorem C8_one_fetch_per_request E C req kwargs r v' :
  get E C req kwargs new_view = (Ok r, v') →
  ∃ o, object v' = Some o ∧ queries v' = 1%nat ∧
    (∀ context, r = Render context →
       context !! "show" = Some o ∧ context !! "object" = Some o) ∧
    get_object E C v' = (Ok o, v') ∧
    ∀ kw, get_context_data E C kw v' = (Ok (<["show" := o]> kw), v').
Proof.
  intros (n & fb & o & v1 & Hreq & Ho & -> & Hr)%get_Ok_inv.
  exists o. pose proof (get_object_again _ _ _ _ _ (Some o) Ho) as Hagain.
  split_and!; [done| | |done|].
  - by apply get_object_fresh_queries in Ho.
  - intros context ->. destruct (_ && _); [|done]. injection Hr as ->.
    split; [by rewrite lookup_insert_eq|].
    rewrite lookup_insert_ne by done. by rewrite lookup_singleton_eq.
  - intros kw. unfold get_context_data, bind, ret. by rewrite Hagain.
Qed.

Lemma C8_witness :
  ∃ o, object (get schedule ShowDetail req {["date" := "2023-01-05"]}
                 new_view).2 = Some o ∧
    queries (get schedule ShowDetail req {["date" := "2023-01-05"]}
               new_view).2 = 1%nat ∧
    (∀ context,
       Render {["show" := (0%nat, jan5); "object" := (0%nat, jan5)]}
       = Render context →
       context !! "show" = Some o ∧ context !! "object" = Some o) ∧
    get_object schedule ShowDetail
      (get schedule ShowDetail req {["date" := "2023-01-05"]} new_view).2 =
    (Ok o, (get schedule ShowDetail req {["date" := "2023-01-05"]}
              new_view).2) ∧
    ∀ kw, get_context_data schedule ShowDetail kw
            (get schedule ShowDetail req {["date" := "2023-01-05"]}
               new_view).2 =
          (Ok (<["show" := o]> kw),
           (get schedule ShowDetail req {["date" := "2023-01-05"]}
              new_view).2).
Proof.
  apply (C8_one_fetch_per_request schedule ShowDetail req
           {["date" := "2023-01-05"]}).
  vm_compute. reflexivity.
Defined.

(** ** The show in progress *)

Lemma Show_at_Some rows t s :
  Show_at rows t = Some s → s ∈ rows ∧ in_progress t s.
Proof.
  intros H%head_order_by_earliest%earliest_elem_of.
  apply list_elem_of_filter in H. tauto.
Qed.

Lemma Show_at_None rows t :
  Show_at rows t = None ↔ ∀ e, e ∈ rows → ¬ in_progress t e.
Proof.
  unfold Show_at. rewrite head_None, order_by_nil. split.
  - intros Hnil e He Hin.
    assert (e ∈ filter (in_progress t) rows) as H
      by by apply list_elem_of_filter.
    rewrite Hnil in H. by apply elem_of_nil in H.
  - intros Hnone. apply elem_of_nil_inv. intros e [??]%list_elem_of_filter.
    by eapply Hnone.
Qed.

Lemma ThisShowDetailMixin_get_object_undated E C ob n :
  (ThisShowDetailMixin_get_object E C (mkview None ob ∅ n)).1 =
  match model_at E (now E) with
  | Some s => Ok (n, s)
  | None => Raise (Http404 "")
  end.
Proof.
  unfold ThisShowDetailMixin_get_object, memoize. cbn [memo].
  rewrite lookup_empty.
  unfold bind, get_date, try_except, fetch, raise. simpl.
  by destruct (model_at E (now E)).
Qed.

(** C2, amended: with no date given, [ThisShowDetailMixin.get_object]
    returns what the current-show lookup [Show.at(now)] finds and ends in
    a 404 when that lookup finds nothing; it does not fall back to the
    most recently completed show. With the current-show lookup of the
    specification, a show whose interval contains now is returned when
    there is one, and the request is a 404 when there is none, whatever
    shows have been completed. *)
Theorem C2_in_progress_or_404 E C ob n :
  cls C = ThisShowDetailMixin →
  let r := (get_object E C (mkview None ob ∅ n)).1 in
  (∀ s, model_at E (now E) = Some s → r = Ok (n, s)) ∧
  (model_at E (now E) = None → r = Raise (Http404 "")) ∧
  (model_at E = Show_at (objects E) →
   ((∃ e, e ∈ objects E ∧ in_progress (now E) e) →
    ∃ s, r = Ok (n, s) ∧ s ∈ objects E ∧ in_progress (now E) s) ∧
   ((∀ e, e ∈ objects E → ¬ in_progress (now E) e) →
    r = Raise (Http404 ""))).
Proof.
  intros Hcls r. subst r. unfold get_object. rewrite Hcls.
  rewrite ThisShowDetailMixin_get_object_undated.
  split_and!.
  - by intros s ->.
  - by intros ->.
  - intros ->. split.
    + intros (e & He & Hin).
      destruct (Show_at (objects E) (now E)) as [s|] eqn:Hs.
      * exists s. by apply Show_at_Some in Hs as [??].
      * rewrite Show_at_None in Hs. by destruct (Hs e).
    + intros Hnone%Show_at_None. by rewrite Hnone.
Qed.

Lemma C2_witness :
  (get_object on_air ThisShowDetail new_view).1 = Ok (0%nat, feb10) ∧
  (∃ s, (get_object on_air ThisShowDetail new_view).1 = Ok (0%nat, s) ∧
        s ∈ objects on_air ∧ in_progress (now on_air) s) ∧
  (get_object schedule ThisShowDetail new_view).1 = Raise (Http404 "").
Proof.
  destruct (C2_in_progress_or_404 on_air ThisShowDetail None 0%nat eq_refl)
    as (Hsome & _ & Hspec).
  destruct (C2_in_progress_or_404 schedule ThisShowDetail None 0%nat eq_refl)
    as (_ & Hnone & _).
  split_and!.
  - apply Hsome. vm_compute. reflexivity.
  - apply (Hspec eq_refl). exists feb10. split.
    + apply list_elem_of_In. vm_compute. tauto.
    + vm_compute. split; [discriminate|reflexivity].
  - apply Hnone. vm_compute. reflexivity.
Defined.

(** C2 as stated fails: while no show is on air, the lookup of
    [ThisShowDetailMixin] ends in a 404 although a completed show exists
    and the most-recent-completed rule finds it. *)
Lemma C2_counterexample :
  model_at schedule (now schedule) = None ∧
  feb10 ∈ objects schedule ∧ end__lt (now schedule) feb10 ∧
  (get_object schedule ShowDetail new_view).1 = Ok (0%nat, feb10) ∧
  (get_object schedule ThisShowDetail new_view).1 = Raise (Http404 "").
Proof.
  split_and!.
  - vm_compute. reflexivity.
  - apply list_elem_of_In. vm_compute. tauto.
  - vm_compute. reflexivity.
  - vm_compute. reflexivity.
  - vm_compute. reflexivity.
Qed.

(** ** Reading and writing dates *)

Lemma digit_val_char k : 0 ≤ k ≤ 9 → digit_val (digit_char k) = Some k.
Proof.
  intros H. assert (k = 0 ∨ k = 1 ∨ k = 2 ∨ k = 3 ∨ k = 4 ∨ k = 5 ∨ k = 6 ∨
                    k = 7 ∨ k = 8 ∨ k = 9) as Hk by lia.
  destruct_or!; subst; reflexivity.
Qed.

Lemma re_Y_pad4 y k : 0 ≤ y ≤ 9999 → re_Y (pad4 y k) = [(y, k)].
Proof.
  intros H. unfold pad4, pad2, re_Y.
  assert (∀ x, 0 ≤ x mod 10 ≤ 9) as Hb
    by (intros x; pose proof (Z.mod_pos_bound x 10); lia).
  rewrite !digit_val_char by apply Hb.
  do 2 f_equal. Z.div_mod_to_equations. lia.
Qed.

Lemma valid_date_range d :
  valid_date d = true →
  1 ≤ Py.year d ≤ 9999 ∧ 1 ≤ month d ≤ 12 ∧ 1 ≤ day d ≤ 31.
Proof.
  unfold valid_date, _days_in_month. intros H.
  repeat (apply andb_prop in H as [H ?]).
  repeat case_match; lia.
Qed.

Lemma re_match_month_day y m dd :
  1 ≤ m ≤ 12 → 1 ≤ dd ≤ 31 →
  ∃ l, re_match [Lit "-"; Dm; Lit "-"; Dd] (mkdate y 1 1)
         (String "-" (pad2 m (String "-" (pad2 dd "")))) =
       (mkdate y m dd, ""%string) :: l.
Proof.
  intros Hm Hd.
  assert (m = 1 ∨ m = 2 ∨ m = 3 ∨ m = 4 ∨ m = 5 ∨ m = 6 ∨ m = 7 ∨ m = 8 ∨
          m = 9 ∨ m = 10 ∨ m = 11 ∨ m = 12) as Hm' by lia.
  assert (dd = 1 ∨ dd = 2 ∨ dd = 3 ∨ dd = 4 ∨ dd = 5 ∨ dd = 6 ∨ dd = 7 ∨
          dd = 8 ∨ dd = 9 ∨ dd = 10 ∨ dd = 11 ∨ dd = 12 ∨ dd = 13 ∨
          dd = 14 ∨ dd = 15 ∨ dd = 16 ∨ dd = 17 ∨ dd = 18 ∨ dd = 19 ∨
          dd = 20 ∨ dd = 21 ∨ dd = 22 ∨ dd = 23 ∨ dd = 24 ∨ dd = 25 ∨
          dd = 26 ∨ dd = 27 ∨ dd = 28 ∨ dd = 29 ∨ dd = 30 ∨ dd = 31)
    as Hd' by lia.
  clear Hm Hd. destruct_or!; subst; eexists; reflexivity.
Qed.

Lemma re_match_DY f d0 y k :
  0 ≤ y ≤ 9999 →
  re_match (DY :: f) d0 (pad4 y k) = re_match f (mkdate y (month d0) (day d0)) k.
Proof.
  intros H. cbn [re_match]. rewrite re_Y_pad4 by done.
  cbn [mbind list_bind fst snd]. apply app_nil_r.
Qed.

Lemma decimal_pad4 y k : 1000 ≤ y ≤ 9999 → decimal y k = pad4 y k.
Proof.
  intros Hy. unfold decimal.
  destruct (Z.to_nat y) as [|[|[|fuel]]] eqn:Hfuel; [lia..|].
  cbn [decimal_go].
  assert ((y <? 10) = false) as -> by (apply Z.ltb_ge; lia).
  assert ((y / 10 <? 10) = false) as ->
    by (apply Z.ltb_ge; Z.div_mod_to_equations; lia).
  assert ((y / 10 / 10 <? 10) = false) as ->
    by (apply Z.ltb_ge; Z.div_mod_to_equations; lia).
  assert ((y / 10 / 10 / 10 <? 10) = true) as ->
    by (apply Z.ltb_lt; Z.div_mod_to_equations; lia).
  unfold pad4, pad2. rewrite !Z.div_div by lia. reflexivity.
Qed.

Lemma strptime_strftime d :
  valid_date d = true → 1000 ≤ Py.year d →
  strptime (strftime d date_fmt) date_fmt = Ok (midnight d).
Proof.
  intros Hv Hy4. pose proof (valid_date_range d Hv) as (Hy & Hm & Hd).
  unfold strptime, date_fmt. cbn [strftime]. rewrite decimal_pad4 by lia.
  rewrite re_match_DY by lia. cbn [month day].
  destruct (re_match_month_day (Py.year d) (month d) (day d) Hm Hd) as [l ->].
  destruct d as [y m dd]. cbn [Py.year month day] in *. rewrite Hv.
  by rewrite decide_True.
Qed.

Lemma strptime_Ok_midnight s f n :
  strptime s f = Ok n → n = midnight (n_date n) ∧ valid_date (n_date n) = true.
Proof.
  unfold strptime. destruct (re_match _ _ _) as [|[d rest] ?]; [done|].
  destruct (decide _); [|done]. destruct (valid_date d) eqn:Hv; [|done].
  by intros [= <-].
Qed.

(** ** Canonical dates: rendering in place, and redirecting *)

Lemma filter_filter_impl (P Q : Show → Prop)
    `{∀ x, Decision (P x)} `{∀ x, Decision (Q x)} (l : list Show) :
  (∀ x, P x → Q x) → filter P (filter Q l) = filter P l.
Proof.
  intros HPQ. induction l as [|x l IH]; [done|].
  destruct (decide (Q x)) as [HQ|HQ].
  - rewrite (filter_cons_True Q) by done.
    destruct (decide (P x)).
    + rewrite !(filter_cons_True P) by done. by rewrite IH.
    + rewrite !(filter_cons_False P) by done. done.
  - rewrite (filter_cons_False Q) by done.
    rewrite (filter_cons_False P) by naive_solver. done.
Qed.

Lemma get_object_dated_fresh E C t ob n r v1 :
  get_object E C (mkview (Some t) ob ∅ n) = (r, v1) →
  r = match index0 (order_by (asc showtime)
                      (filter (showtime__gt t) (objects E))) with
      | Ok s => Ok (n, s)
      | Raise _ => Raise (Http404 "")
      end.
Proof.
  intros H. replace r with (r, v1).1 by done. rewrite <- H.
  erewrite get_object_dated by done. rewrite _get_object_fresh by done.
  cbn [date queries _get_object_queryset]. by destruct (index0 _).
Qed.

Lemma get_object_dated_earliest E C t ob n e :
  earliest (asc showtime) (filter (showtime__gt t) (objects E)) e →
  ∃ v1, get_object E C (mkview (Some t) ob ∅ n) = (Ok (n, e), v1).
Proof.
  intros He%index0_order_by_Ok.
  destruct (get_object E C (mkview (Some t) ob ∅ n)) as [r v1] eqn:Hg.
  exists v1. apply get_object_dated_fresh in Hg. rewrite He in Hg. by subst.
Qed.

Lemma requested_iso kwargs s d :
  kwargs !! "date" = Some s → strptime s date_fmt = Ok (midnight d) →
  requested kwargs (Some (midnight d)) false.
Proof. intros Hs Hp. unfold requested. rewrite Hs. by exists (midnight d). Qed.

(** C3, amended: for every valid ISO date string [d], when the show [e]
    is the one with the smallest showtime strictly after midnight of [d]
    in the configured zone, and the calendar date of its showtime is [d],
    the request locates [e] and is rendered in place. *)
Theorem C3_iso_date_of_next_show_renders E C req kwargs s d e :
  kwargs !! "date" = Some s →
  strptime s date_fmt = Ok (midnight d) →
  let t := make_aware (midnight d) (current_timezone E) in
  e ∈ objects E →
  showtime__gt t e →
  (∀ x, x ∈ objects E → x ≠ e → showtime__gt t x →
        timestamp (showtime e) < timestamp (showtime x)) →
  date_of (showtime e) = d →
  ∃ v', get E C req kwargs new_view =
          (Ok (Render (<["show" := (0%nat, e)]> {["object" := (0%nat, e)]})),
           v') ∧
        object v' = Some (0%nat, e).
Proof.
  intros Hs Hp t He Hgt Hmin Hdate.
  assert (earliest (asc showtime) (filter (showtime__gt t) (objects E)) e)
    as Hearly.
  { apply strict_min_earliest; [by apply list_elem_of_filter|].
    intros x [??]%list_elem_of_filter ?. by apply Hmin. }
  destruct (get_object_dated_earliest E C t None 0 e Hearly) as [v1 Ho].
  exists (with_object (Some (0%nat, e)) v1). split; [|done].
  rewrite (get_located E C req kwargs new_view _ _ _ _
             (requested_iso _ _ _ Hs Hp) Ho).
  cbn [fmap option_fmap option_map negb andb snd].
  by rewrite bool_decide_eq_true_2.
Qed.

Lemma C3_witness :
  ∃ v', get schedule ShowDetail req {["date" := "2023-01-05"]} new_view =
          (Ok (Render (<["show" := (0%nat, jan5)]>
                         {["object" := (0%nat, jan5)]})), v') ∧
        object v' = Some (0%nat, jan5).
Proof.
  apply (C3_iso_date_of_next_show_renders schedule ShowDetail req
           {["date" := "2023-01-05"]} "2023-01-05" (mkdate 2023 1 5) jan5).
  - reflexivity.
  - vm_compute. reflexivity.
  - apply list_elem_of_In. vm_compute. tauto.
  - vm_compute. reflexivity.
  - intros x Hx%list_elem_of_In Hne Hgt. vm_compute in Hx.
    destruct Hx as [<-|[<-|[]]]; [done|]. vm_compute. reflexivity.
  - reflexivity.
Defined.

(** C3 as stated fails twice over: a show that starts exactly at midnight
    of the requested date is not found, and of two shows on one date only
    the earlier one is located. *)
Lemma C3_counterexample :
  strptime "2023-01-05" date_fmt = Ok (midnight (mkdate 2023 1 5)) ∧
  (midnight_show ∈ objects midnight_env ∧
   date_of (showtime midnight_show) = mkdate 2023 1 5 ∧
   (get midnight_env ShowDetail req {["date" := "2023-01-05"]} new_view).1 =
   Raise (Http404 "")) ∧
  (jan5 ∈ objects double_bill ∧
   date_of (showtime jan5) = mkdate 2023 1 5 ∧
   ∃ context,
     (get double_bill ShowDetail req {["date" := "2023-01-05"]} new_view).1 =
     Ok (Render context) ∧
     context !! "show" = Some (0%nat, matinee) ∧ matinee ≠ jan5).
Proof.
  split_and!.
  - vm_compute. reflexivity.
  - apply list_elem_of_In. vm_compute. tauto.
  - reflexivity.
  - vm_compute. reflexivity.
  - apply list_elem_of_In. vm_compute. tauto.
  - reflexivity.
  - eexists. split_and!; [vm_compute; reflexivity|vm_compute; reflexivity|].
    discriminate.
Qed.




(** ** The year index *)

Lemma distinct_runs_keys key l y :
  y ∈ key <$> distinct_runs key l ↔ y ∈ key <$> l.
Proof.
  induction l as [|x [|x' l] IH]; [done..|].
  change (distinct_runs key (x :: x' :: l)) with
    (if key x =? key x' then distinct_runs key (x' :: l)
     else x :: distinct_runs key (x' :: l)).
  destruct (Z.eqb_spec (key x) (key x')) as [Heq|Hne].
  - rewrite IH. rewrite !fmap_cons, !elem_of_cons, Heq. tauto.
  - rewrite (fmap_cons _ x), elem_of_cons, IH.
    by rewrite (fmap_cons _ x (x' :: l)), (elem_of_cons _ y (key x)).
Qed.

Lemma distinct_runs_sorted key l :
  StronglySorted (λ a b, key a ≤ key b) l →
  StronglySorted Z.lt (key <$> distinct_runs key l).
Proof.
  induction 1 as [|x l Hl IH Hx]; [constructor|].
  destruct l as [|x' l]; [repeat constructor|].
  change (distinct_runs key (x :: x' :: l)) with
    (if key x =? key x' then distinct_runs key (x' :: l)
     else x :: distinct_runs key (x' :: l)).
  destruct (Z.eqb_spec (key x) (key x')) as [Heq|Hne]; [done|].
  rewrite fmap_cons. constructor; [done|].
  apply Forall_forall. intros y Hy.
  apply (proj1 (distinct_runs_keys _ _ _)) in Hy.
  apply list_elem_of_fmap in Hy as (z & -> & Hz).
  apply StronglySorted_inv in Hl as [_ Hx'].
  rewrite Forall_forall in Hx, Hx'.
  assert (key x ≤ key x') by (apply Hx; left).
  apply elem_of_cons in Hz as [Hz|Hz]; [subst z; lia|].
  specialize (Hx' _ Hz). simpl in Hx'. lia.
Qed.

Lemma sorted_set_elem xs y : y ∈ sorted (set xs) ↔ y ∈ xs.
Proof.
  unfold sorted, set. rewrite merge_sort_Permutation, elem_of_elements.
  apply elem_of_list_to_set.
Qed.

Lemma sorted_set_sorted xs : StronglySorted Z.lt (sorted (set xs)).
Proof.
  unfold sorted.
  assert (NoDup (merge_sort Z.le (elements (set xs)))) as Hnd.
  { rewrite merge_sort_Permutation. apply NoDup_elements. }
  pose proof (StronglySorted_merge_sort Z.le (elements (set xs))) as Hs.
  induction Hs as [|x l Hl IH Hx]; [constructor|].
  apply NoDup_cons in Hnd as [Hnin Hnd]. constructor; [by apply IH|].
  rewrite Forall_forall in Hx |- *. intros y Hy.
  specialize (Hx _ Hy). assert (x ≠ y) by (by intros ->). lia.
Qed.

Lemma StronglySorted_lt_NoDup (l : list Z) : StronglySorted Z.lt l → NoDup l.
Proof.
  induction 1 as [|x l Hl IH Hx]; constructor; [|done].
  rewrite Forall_forall in Hx. intros Hin. specialize (Hx _ Hin). lia.
Qed.

(** Two strictly ascending lists with the same members are equal. *)
Lemma StronglySorted_lt_ext (l1 l2 : list Z) :
  StronglySorted Z.lt l1 → StronglySorted Z.lt l2 →
  (∀ x, x ∈ l1 ↔ x ∈ l2) → l1 = l2.
Proof.
  intros H1. revert l2.
  induction H1 as [|a l1 H1 IH Ha]; intros l2 H2 Hel.
  - destruct l2 as [|b l2]; [done|].
    assert (b ∈ @nil Z) as Hb by (apply Hel; left). by apply elem_of_nil in Hb.
  - destruct l2 as [|b l2].
    { assert (a ∈ @nil Z) as Hb by (apply Hel; left).
      by apply elem_of_nil in Hb. }
    apply StronglySorted_inv in H2 as [H2 Hb].
    rewrite Forall_forall in Ha, Hb.
    assert (a = b) as <-.
    { assert (a ∈ b :: l2) as Ha' by (apply Hel; left).
      assert (b ∈ a :: l1) as Hb' by (apply Hel; left).
      apply elem_of_cons in Ha' as [?|Ha']; [done|].
      apply elem_of_cons in Hb' as [?|Hb']; [done|].
      specialize (Ha _ Hb'). specialize (Hb _ Ha'). lia. }
    f_equal. apply IH; [done|]. intros x. split; intros Hx.
    + assert (x ∈ a :: l2) as Hx' by (apply Hel; by right).
      apply elem_of_cons in Hx' as [->|?]; [|done].
      specialize (Ha _ Hx). lia.
    + assert (x ∈ a :: l1) as Hx' by (apply Hel; by right).
      apply elem_of_cons in Hx' as [->|?]; [|done].
      specialize (Hb _ Hx). lia.
Qed.

Section ArchiveLemmas.
Variable E : env.
Variable exclude_current : bool.

Lemma elem_of_years_of_queryset y :
  y ∈ values_list (showtime__year E)
        (order_by (showtime__year E) (get_queryset E exclude_current)) ↔
  ∃ s, s ∈ get_queryset E exclude_current ∧ showtime__year E s = y.
Proof.
  unfold values_list. rewrite list_elem_of_fmap. split.
  - intros (s & -> & Hs%elem_of_order_by). by exists s.
  - intros (s & Hs & <-). exists s. by rewrite elem_of_order_by.
Qed.

Lemma native_years_spec :
  StronglySorted Z.lt (native_years E exclude_current) ∧
  ∀ y, y ∈ native_years E exclude_current ↔
       ∃ s, s ∈ get_queryset E exclude_current ∧ showtime__year E s = y.
Proof.
  split.
  - apply distinct_runs_sorted, order_by_Sorted.
  - intros y. unfold native_years, values_list.
    rewrite distinct_runs_keys. apply elem_of_years_of_queryset.
Qed.

Lemma fallback_years_spec :
  StronglySorted Z.lt (fallback_years E exclude_current) ∧
  ∀ y, y ∈ fallback_years E exclude_current ↔
       ∃ s, s ∈ get_queryset E exclude_current ∧ showtime__year E s = y.
Proof.
  split; [apply sorted_set_sorted|].
  intros y. unfold fallback_years. rewrite sorted_set_elem.
  apply elem_of_years_of_queryset.
Qed.

Lemma native_fallback_years :
  native_years E exclude_current = fallback_years E exclude_current.
Proof.
  destruct native_years_spec as [Hn Hne], fallback_years_spec as [Hf Hfe].
  apply StronglySorted_lt_ext; [done..|]. intros y. by rewrite Hne, Hfe.
Qed.

Lemma get_years_eq :
  get_years E exclude_current =
  Ok (if distinct_on_supported E then native_years E exclude_current
      else fallback_years E exclude_current).
Proof. unfold get_years, distinct. by destruct (distinct_on_supported E). Qed.

Lemma get_years_native :
  get_years E exclude_current = Ok (native_years E exclude_current).
Proof.
  rewrite get_years_eq. destruct (distinct_on_supported E); [done|].
  by rewrite native_fallback_years.
Qed.

Lemma latest_Ok key e :
  latest key (get_queryset E exclude_current) = Ok e ↔
  earliest (λ s, - key s) (get_queryset E exclude_current) e.
Proof.
  unfold latest. rewrite <- index0_order_by_Ok. unfold index0.
  destruct (order_by _ _); naive_solver.
Qed.

Lemma latest_nonempty key :
  get_queryset E exclude_current ≠ [] →
  ∃ e, latest key (get_queryset E exclude_current) = Ok e.
Proof.
  intros Hne. unfold latest.
  destruct (order_by _ _) as [|e l] eqn:Hl; [|by eauto].
  by apply order_by_nil in Hl.
Qed.

Lemma year_default kwargs :
  kwargs !! "year" = None →
  get_queryset E exclude_current ≠ [] →
  ∃ e, earliest (desc showtime) (get_queryset E exclude_current) e ∧
       latest (asc showtime) (get_queryset E exclude_current) = Ok e ∧
       year E exclude_current kwargs =
       if bool_decide (year_of (showtime e) ∈ native_years E exclude_current)
       then Ok (year_of (showtime e))
       else Raise (Http404 no_shows_msg).
Proof.
  intros Hk Hne. destruct (latest_nonempty (asc showtime) Hne) as [e He].
  exists e. pose proof He as Hearly%latest_Ok.
  split_and!; [done..|].
  unfold year. by rewrite Hk, He, get_years_native.
Qed.

Lemma year_default_listed kwargs e :
  kwargs !! "year" = None →
  latest (asc showtime) (get_queryset E exclude_current) = Ok e →
  showtime__year E e = year_of (showtime e) →
  year_of (showtime e) ∈ native_years E exclude_current ∧
  year E exclude_current kwargs = Ok (year_of (showtime e)).
Proof.
  intros Hk He Hzone. pose proof He as Hearly%latest_Ok.
  assert (year_of (showtime e) ∈ native_years E exclude_current) as Hin.
  { apply native_years_spec. exists e. split; [|done].
    by eapply earliest_elem_of. }
  split; [done|].
  unfold year. rewrite Hk, He, get_years_native.
  by rewrite bool_decide_eq_true_2.
Qed.

End ArchiveLemmas.

(** C6: the native [distinct] query and the set-and-sort fallback of
    [get_years] give the same list, whichever the engine makes the view
    take: strictly ascending, free of duplicates, and holding exactly the
    years in which some show of the queryset has its showtime. *)
Theorem C6_get_years_paths_agree rows t tz tz_at lookup current
    exclude_current :
  let native := mkenv rows t tz tz_at lookup current true in
  let fallback := mkenv rows t tz tz_at lookup current false in
  ∃ years,
    get_years native exclude_current = Ok years ∧
    get_years fallback exclude_current = Ok years ∧
    years = native_years native exclude_current ∧
    years = fallback_years fallback exclude_current ∧
    StronglySorted Z.lt years ∧ NoDup years ∧
    ∀ y, y ∈ years ↔
         ∃ s, s ∈ get_queryset native exclude_current ∧
              showtime__year native s = y.
Proof.
  intros native fallback. exists (native_years native exclude_current).
  pose proof (native_years_spec native exclude_current) as [Hs Hel].
  assert (native_years native exclude_current =
          native_years fallback exclude_current) as Hengine.
  { unfold native_years, get_queryset, showtime__year, native, fallback.
    cbn [objects model_current current_timezone_at]. reflexivity. }
  repeat apply conj.
  - apply get_years_native.
  - rewrite Hengine. apply get_years_native.
  - reflexivity.
  - rewrite Hengine. apply native_fallback_years.
  - exact Hs.
  - apply StronglySorted_lt_NoDup, Hs.
  - exact Hel.
Qed.

(** ** Calendar years and instants *)

Lemma _days_before_year_succ y :
  _days_before_year (y + 1) =
  _days_before_year y + 365 + (if _is_leap y then 1 else 0).
Proof.
  unfold _days_before_year, _is_leap.
  replace (y + 1 - 1) with y by lia.
  destruct (Z.eqb_spec (y mod 4) 0), (Z.eqb_spec (y mod 100) 0),
    (Z.eqb_spec (y mod 400) 0); simpl; Z.div_mod_to_equations; lia.
Qed.

Lemma _days_before_year_mono y y' :
  y ≤ y' → _days_before_year y ≤ _days_before_year y'.
Proof.
  unfold _days_before_year. intros H. Z.div_mod_to_equations. lia.
Qed.

Lemma day_of_year_bounds d :
  valid_date d = true →
  1 ≤ _days_before_month (Py.year d) (month d) + day d
    ≤ 365 + (if _is_leap (Py.year d) then 1 else 0).
Proof.
  unfold valid_date, _days_in_month, _days_before_month.
  destruct d as [y m dd]. cbn [Py.year month day]. intros H.
  repeat (apply andb_prop in H as [H ?]).
  assert (m = 1 ∨ m = 2 ∨ m = 3 ∨ m = 4 ∨ m = 5 ∨ m = 6 ∨ m = 7 ∨ m = 8 ∨
          m = 9 ∨ m = 10 ∨ m = 11 ∨ m = 12) as Hm by lia.
  destruct_or!; subst m; simpl in *; destruct (_is_leap y); simpl in *; lia.
Qed.

Lemma timestamp_le_year a b :
  valid_datetime a = true → valid_datetime b = true →
  utcoffset a = utcoffset b →
  timestamp a ≤ timestamp b → year_of a ≤ year_of b.
Proof.
  unfold valid_datetime, timestamp, naive_micros, year_of, date_of, _ymd2ord.
  intros [Hda Hta]%andb_prop [Hdb Htb]%andb_prop Hoff Hle.
  unfold valid_time in Hta, Htb.
  repeat (apply andb_prop in Hta as [Hta ?]).
  repeat (apply andb_prop in Htb as [Htb ?]).
  pose proof (day_of_year_bounds _ Hda). pose proof (day_of_year_bounds _ Hdb).
  destruct (Z.le_gt_cases (Py.year (n_date (local a))) (Py.year (n_date (local b))))
    as [|Hgt]; [done|].
  pose proof (_days_before_year_mono (Py.year (n_date (local b)) + 1)
                (Py.year (n_date (local a))) ltac:(lia)) as Hmono.
  rewrite _days_before_year_succ in Hmono.
  destruct (_is_leap (Py.year (n_date (local b)))),
    (_is_leap (Py.year (n_date (local a)))); lia.
Qed.

(** ** Which year the archive shows *)



(** C7 as stated fails: in a zone nine hours ahead of UTC the one show
    of the archive, stored as 2022-12-31 20:00 UTC, is listed under 2023,
    where the zone reads it, while the default year is taken from the
    stored datetime: no year was asked for, the archive is not empty, and
    the answer is the 404 about a year without shows. *)
Lemma C7_counterexample :
  get_queryset tokyo_new_year true = [new_year_eve] ∧
  year_of (showtime new_year_eve) = 2022 ∧
  get_years tokyo_new_year true = Ok [2023] ∧
  year tokyo_new_year true ∅ = Raise (Http404 no_shows_msg).
Proof. split_and!; vm_compute; reflexivity. Qed.



(** C10 as stated fails: in a zone five hours behind UTC the one show of
    the archive, stored as 2023-01-01 02:00 UTC, is listed under 2022;
    the default year read from the stored datetime is 2023, which
    [get_years] does not list, and [year] raises its 404 although no
    year was requested and the queryset is not empty. *)
Lemma C10_counterexample :
  (∅ : gmap string string) !! "year" = None ∧
  get_queryset new_york_new_year true ≠ [] ∧
  get_years new_york_new_year true = Ok [2022] ∧
  latest (asc showtime) (get_queryset new_york_new_year true) =
    Ok new_year_day ∧
  year_of (showtime new_year_day) = 2023 ∧
  year new_york_new_year true ∅ = Raise (Http404 no_shows_msg).
Proof.
  split_and!; [reflexivity|vm_compute; discriminate|vm_compute; reflexivity..].
Qed.

(** * Further properties of the views *)

(** ** The default show of a request without a date *)

Lemma get_object_undated_fresh E C ob n :
  cls C = ShowDetailMixin →
  (get_object E C (mkview None ob ∅ n)).1 =
  match index0 (_get_object_queryset E C None) with
  | Ok s => Ok (n, s)
  | Raise _ => Raise (Http404 "")
  end.
Proof.
  intros Hcls. unfold get_object, LetMemoizeGetObject_get_object.
  rewrite Hcls, _get_object_fresh by done. cbn [date queries].
  by destruct (index0 _).
Qed.

(** X1: without a date and without [default_to_current],
    [ShowDetailMixin] locates the show with the greatest end strictly
    before now, and answers 404 exactly when no show has ended yet. *)
Theorem X1_most_recent_completed E C ob n :
  cls C = ShowDetailMixin →
  default_to_current C = false →
  let r := (get_object E C (mkview None ob ∅ n)).1 in
  (∀ o, r = Ok o →
     o.2 ∈ objects E ∧ end__lt (now E) o.2 ∧
     ∀ x, x ∈ objects E → end__lt (now E) x →
          timestamp (end_ x) ≤ timestamp (end_ o.2)) ∧
  (r = Raise (Http404 "") ↔ ∀ x, x ∈ objects E → ¬ end__lt (now E) x) ∧
  ((∃ o, r = Ok o) ∨ r = Raise (Http404 "")).
Proof.
  intros Hcls Hdc r. subst r. rewrite get_object_undated_fresh by done.
  unfold _get_object_queryset. rewrite Hdc. cbn [negb].
  destruct (index0 _) as [s|e] eqn:Hq.
  - apply index0_order_by_Ok in Hq.
    pose proof (earliest_elem_of _ _ _ Hq) as [Hlt Hin]%list_elem_of_filter.
    split_and!.
    + intros o [= <-]. split_and!; [done..|]. intros x Hx Hxlt.
      assert (x ∈ filter (end__lt (now E)) (objects E)) as Hx'
        by by apply list_elem_of_filter.
      pose proof (earliest_le _ _ _ x Hq Hx') as Hle. unfold desc in Hle.
      simpl. lia.
    + split; [done|]. intros Hnone. by destruct (Hnone _ Hin).
    + left. eauto.
  - apply index0_order_by_Raise in Hq as [Hq _]. split_and!.
    + done.
    + split; [|done]. intros _ x Hx Hlt.
      assert (x ∈ filter (end__lt (now E)) (objects E)) as Hin
        by by apply list_elem_of_filter.
      rewrite Hq in Hin. by apply elem_of_nil in Hin.
    + by right.
Qed.

Lemma X1_witness :
  (get_object schedule ShowDetail new_view).1 = Ok (0%nat, feb10) ∧
  (feb10 ∈ objects schedule ∧ end__lt (now schedule) feb10 ∧
   ∀ x, x ∈ objects schedule → end__lt (now schedule) x →
        timestamp (end_ x) ≤ timestamp (end_ feb10)).
Proof.
  destruct (X1_most_recent_completed schedule ShowDetail None 0
              eq_refl eq_refl) as (Hok & _ & _).
  assert ((get_object schedule ShowDetail new_view).1 = Ok (0%nat, feb10))
    as Hrun by (vm_compute; reflexivity).
  split; [exact Hrun|]. exact (Hok _ Hrun).
Defined.

(** X2: with [default_to_current] set and no date, [ShowDetailMixin]
    applies no filter at all: it locates the show with the greatest end
    of the whole table, whether that show is over, on air or still to
    come, and answers 404 only when the table is empty. *)
Theorem X2_default_to_current_takes_latest_end E C ob n :
  cls C = ShowDetailMixin →
  default_to_current C = true →
  let r := (get_object E C (mkview None ob ∅ n)).1 in
  (∀ o, r = Ok o →
     o.2 ∈ objects E ∧
     ∀ x, x ∈ objects E → timestamp (end_ x) ≤ timestamp (end_ o.2)) ∧
  (r = Raise (Http404 "") ↔ objects E = []) ∧
  (objects E ≠ [] → ∃ o, r = Ok o).
Proof.
  intros Hcls Hdc r. subst r. rewrite get_object_undated_fresh by done.
  unfold _get_object_queryset. rewrite Hdc. cbn [negb].
  destruct (index0 _) as [s|e] eqn:Hq.
  - apply index0_order_by_Ok in Hq.
    pose proof (earliest_elem_of _ _ _ Hq) as Hin. split_and!.
    + intros o [= <-]. split; [done|]. intros x Hx.
      pose proof (earliest_le _ _ _ x Hq Hx) as Hle. unfold desc in Hle.
      simpl. lia.
    + split; [done|]. intros Hnil. rewrite Hnil in Hin.
      by apply elem_of_nil in Hin.
    + eauto.
  - apply index0_order_by_Raise in Hq as [Hq _]. by split_and!.
Qed.

Lemma X2_witness :
  ∃ o, (get_object on_air (mkconf ShowDetailMixin None true) new_view).1
       = Ok o ∧
       o.2 ∈ objects on_air ∧
       ∀ x, x ∈ objects on_air → timestamp (end_ x) ≤ timestamp (end_ o.2).
Proof.
  destruct (X2_default_to_current_takes_latest_end on_air
              (mkconf ShowDetailMixin None true) None 0 eq_refl eq_refl)
    as (Hok & _ & Hsome).
  destruct Hsome as [o Ho]; [vm_compute; discriminate|].
  exists o. split; [exact Ho|]. exact (Hok o Ho).
Defined.

(** ** The two date formats *)

Lemma list_bind_nil {A B} (f : A → list B) (l : list A) :
  (∀ x, x ∈ l → f x = []) → l ≫= f = [].
Proof.
  induction l as [|x l IH]; intros Hf; [done|].
  rewrite bind_cons, (Hf x) by left. apply IH. intros y Hy. apply Hf. by right.
Qed.

Lemma digit_val_not_sep c v :
  digit_val c = Some v → c ≠ "-"%char ∧ c ≠ " "%char.
Proof. intros H. split; intros ->; vm_compute in H; discriminate. Qed.

(** Whatever [%d] matches at the head of two digits, a digit follows. *)
Lemma re_d_two_digits a b r va vb p :
  digit_val a = Some va → digit_val b = Some vb →
  p ∈ re_d (String a (String b r)) →
  p.2 = r ∨ p.2 = String b r.
Proof.
  intros Ha Hb. unfold re_d, alt2, alt1.
  assert (match String a (String b r) with
          | String " " r' =>
              match r' with
              | String a0 r0 =>
                  match in_range 1 9 a0 with
                  | Some x => [(x, r0)]
                  | None => []
                  end
              | EmptyString => []
              end
          | _ => []
          end = []) as ->.
  { destruct (digit_val_not_sep _ _ Ha) as [_ Hsp].
    destruct a as [[] [] [] [] [] [] [] []]; try reflexivity. done. }
  rewrite app_nil_r.
  repeat (destruct (in_range _ _ _)); cbn [app];
    rewrite ?elem_of_cons, ?elem_of_nil; intros Hp;
    repeat (destruct Hp as [Hp|Hp]); subst; auto; done.
Qed.

Lemma re_match_date_fmt_digits d0 s :
  re_match date_fmt d0 s ≠ [] →
  ∃ a b c d r va vb vc,
    s = String a (String b (String c (String d r))) ∧
    digit_val a = Some va ∧ digit_val b = Some vb ∧ digit_val c = Some vc.
Proof.
  unfold date_fmt. cbn [re_match]. intros Hne.
  destruct s as [|a [|b [|c [|d r]]]]; try done.
  unfold re_Y in Hne.
  destruct (digit_val a) as [va|] eqn:Ha; [|done].
  destruct (digit_val b) as [vb|] eqn:Hb; [|done].
  destruct (digit_val c) as [vc|] eqn:Hc; [|done].
  by exists a, b, c, d, r, va, vb, vc.
Qed.

Lemma strptime_formats_disjoint s n :
  strptime s date_fmt = Ok n → strptime s fallback_fmt = Raise ValueError.
Proof.
  intros Hiso.
  destruct (re_match_date_fmt_digits (mkdate 1900 1 1) s)
    as (a & b & c & d & r & va & vb & vc & -> & Ha & Hb & Hc).
  { unfold strptime in Hiso. by destruct (re_match date_fmt _ _). }
  unfold strptime, fallback_fmt. cbn [re_match]. rewrite list_bind_nil; [done|].
  intros p Hp. apply list_bind_nil. intros k Hk.
  destruct (digit_val_not_sep _ _ Hb) as [Hb' _].
  destruct (digit_val_not_sep _ _ Hc) as [Hc' _].
  destruct (re_d_two_digits _ _ _ _ _ _ Ha Hb Hp) as [Hr|Hr];
    rewrite Hr in Hk; unfold re_lit in Hk;
    rewrite decide_False in Hk by done; by apply elem_of_nil in Hk.
Qed.

Lemma re_d_pad2 dd k :
  1 ≤ dd ≤ 31 →
  ∃ l, re_d (pad2 dd (String "-" k)) = (dd, String "-" k) :: l.
Proof.
  intros Hd.
  assert (dd = 1 ∨ dd = 2 ∨ dd = 3 ∨ dd = 4 ∨ dd = 5 ∨ dd = 6 ∨ dd = 7 ∨
          dd = 8 ∨ dd = 9 ∨ dd = 10 ∨ dd = 11 ∨ dd = 12 ∨ dd = 13 ∨
          dd = 14 ∨ dd = 15 ∨ dd = 16 ∨ dd = 17 ∨ dd = 18 ∨ dd = 19 ∨
          dd = 20 ∨ dd = 21 ∨ dd = 22 ∨ dd = 23 ∨ dd = 24 ∨ dd = 25 ∨
          dd = 26 ∨ dd = 27 ∨ dd = 28 ∨ dd = 29 ∨ dd = 30 ∨ dd = 31)
    as Hd' by lia.
  clear Hd. destruct_or!; subst; eexists; vm_compute; reflexivity.
Qed.

Lemma re_m_pad2 m k :
  1 ≤ m ≤ 12 →
  ∃ l, re_m (pad2 m (String "-" k)) = (m, String "-" k) :: l.
Proof.
  intros Hm.
  assert (m = 1 ∨ m = 2 ∨ m = 3 ∨ m = 4 ∨ m = 5 ∨ m = 6 ∨ m = 7 ∨ m = 8 ∨
          m = 9 ∨ m = 10 ∨ m = 11 ∨ m = 12) as Hm' by lia.
  clear Hm. destruct_or!; subst; eexists; vm_compute; reflexivity.
Qed.

Lemma re_match_fallback_prefix f d0 dd m k :
  1 ≤ dd ≤ 31 → 1 ≤ m ≤ 12 →
  ∃ l, re_match (Dd :: Lit "-" :: Dm :: Lit "-" :: f) d0
         (pad2 dd (String "-" (pad2 m (String "-" k)))) =
       re_match f (mkdate (Py.year d0) m dd) k ++ l.
Proof.
  intros Hd Hm. cbn [re_match].
  destruct (re_d_pad2 dd (pad2 m (String "-" k)) Hd) as [l1 ->].
  destruct (re_m_pad2 m k Hm) as [l2 Hl2].
  rewrite bind_cons. cbn [fst snd re_lit].
  rewrite decide_True by done. rewrite bind_cons, Hl2, bind_cons.
  cbn [fst snd re_lit Py.year month day]. rewrite decide_True by done.
  rewrite bind_cons. cbn [mbind list_bind].
  rewrite !app_nil_r, <- !app_assoc. eauto.
Qed.

Lemma strptime_strftime_fallback d :
  valid_date d = true → 1000 ≤ Py.year d →
  strptime (strftime d fallback_fmt) fallback_fmt = Ok (midnight d).
Proof.
  intros Hv Hy4. pose proof (valid_date_range d Hv) as (Hy & Hm & Hd).
  unfold strptime, fallback_fmt. cbn [strftime]. rewrite decimal_pad4 by lia.
  destruct (re_match_fallback_prefix [DY] (mkdate 1900 1 1) (day d) (month d)
              (pad4 (Py.year d) "") Hd Hm) as [l ->].
  rewrite re_match_DY by lia. cbn [re_match app month day].
  destruct d as [y m dd]. cbn [Py.year month day] in *. rewrite Hv.
  by rewrite decide_True.
Qed.

(** *** Years before 1000 *)

Lemma re_d_rests a b r va p :
  digit_val a = Some va →
  p ∈ re_d (String a (String b r)) →
  p.2 = r ∨ p.2 = String b r.
Proof.
  intros Ha. unfold re_d, alt2, alt1.
  assert (match String a (String b r) with
          | String " " r' =>
              match r' with
              | String a0 r0 =>
                  match in_range 1 9 a0 with
                  | Some x => [(x, r0)]
                  | None => []
                  end
              | EmptyString => []
              end
          | _ => []
          end = []) as ->.
  { destruct (digit_val_not_sep _ _ Ha) as [_ Hsp].
    destruct a as [[] [] [] [] [] [] [] []]; try reflexivity. done. }
  rewrite app_nil_r.
  repeat (destruct (in_range _ _ _)); cbn [app];
    rewrite ?elem_of_cons, ?elem_of_nil; intros Hp;
    repeat (destruct Hp as [Hp|Hp]); subst; auto; done.
Qed.

Lemma re_m_rests a b r p :
  p ∈ re_m (String a (String b r)) →
  p.2 = r ∨ p.2 = String b r.
Proof.
  unfold re_m, alt2, alt1.
  repeat (destruct (in_range _ _ _)); cbn [app];
    rewrite ?elem_of_cons, ?elem_of_nil; intros Hp;
    repeat (destruct Hp as [Hp|Hp]); subst; auto; done.
Qed.

Lemma digit_char_val n : ∃ v, digit_val (digit_char (n mod 10)) = Some v.
Proof.
  exists (n mod 10). apply digit_val_char.
  pose proof (Z.mod_pos_bound n 10). lia.
Qed.

Lemma re_lit_digit c r v : digit_val c = Some v → re_lit "-" (String c r) = [].
Proof.
  intros Hc. destruct (digit_val_not_sep _ _ Hc) as [Hne _].
  unfold re_lit. by rewrite decide_False.
Qed.

(** A year below 1000 is written with one, two or three digits. *)
Lemma decimal_short y k :
  0 ≤ y < 1000 →
  ∃ a va, digit_val a = Some va ∧
    (decimal y k = String a k ∨
     ∃ b vb, digit_val b = Some vb ∧
       (decimal y k = String a (String b k) ∨
        ∃ c vc, digit_val c = Some vc ∧
          decimal y k = String a (String b (String c k)))).
Proof.
  intros Hy. unfold decimal.
  destruct (Z.ltb_spec y 10) as [H10|H10].
  { destruct (digit_char_val y) as [v Hv]. exists (digit_char (y mod 10)), v. split; [done|]. left.
    cbn [decimal_go]. by rewrite (proj2 (Z.ltb_lt y 10)). }
  destruct (Z.to_nat y) as [|[|[|fuel]]] eqn:Hfuel; [lia..|].
  cbn [decimal_go]. rewrite (proj2 (Z.ltb_ge y 10)) by done.
  destruct (digit_char_val (y / 10 / 10)) as [u Hu],
    (digit_char_val (y / 10)) as [v Hv], (digit_char_val y) as [w Hw].
  destruct (Z.ltb_spec (y / 10) 10) as [H100|H100].
  { exists (digit_char (y / 10 mod 10)), v. split; [done|]. right.
    exists (digit_char (y mod 10)), w. split; [done|]. by left. }
  exists (digit_char (y / 10 / 10 mod 10)), u. split; [done|]. right.
  exists (digit_char (y / 10 mod 10)), v. split; [done|]. right.
  exists (digit_char (y mod 10)), w. split; [done|].
  rewrite (proj2 (Z.ltb_lt (y / 10 / 10) 10)); [done|].
  Z.div_mod_to_equations. lia.
Qed.

Lemma re_Y_short y : 0 ≤ y < 1000 → re_Y (decimal y "") = [].
Proof.
  intros Hy.
  destruct (decimal_short y "" Hy)
    as (a & va & Ha & [->|(b & vb & Hb & [->|(c & vc & Hc & ->)])]); done.
Qed.

Lemma re_Y_short_sep y k : 0 ≤ y < 1000 → re_Y (decimal y (String "-" k)) = [].
Proof.
  intros Hy.
  destruct (decimal_short y (String "-" k) Hy)
    as (a & va & Ha & [->|(b & vb & Hb & [->|(c & vc & Hc & ->)])]);
    unfold re_Y; destruct k as [|k1 [|k2 [|k3 k]]]; try done;
    rewrite ?Ha, ?Hb, ?Hc; try done.
Qed.

Lemma re_Y_pad2_sep n k : re_Y (pad2 n (String "-" k)) = [].
Proof.
  unfold pad2, re_Y. destruct k as [|k1 k]; [done|].
  destruct (digit_char_val (n / 10)) as [v ->], (digit_char_val n) as [w ->].
  done.
Qed.

Lemma re_match_Lit_digit f d0 c r v :
  digit_val c = Some v → re_match (Lit "-" :: f) d0 (String c r) = [].
Proof. intros Hc. cbn [re_match]. by rewrite (re_lit_digit _ _ _ Hc). Qed.

(** A month behind a hyphen, then a hyphen and no year: the rest of the
    legacy format finds no match. *)
Lemma fallback_tail_no_year d0 m K :
  re_Y K = [] →
  re_match [Lit "-"; Dm; Lit "-"; DY] d0 (String "-" (pad2 m (String "-" K)))
  = [].
Proof.
  intros HK. cbn [re_match].
  apply list_bind_nil. intros r Hr. unfold re_lit in Hr.
  rewrite decide_True in Hr by done. apply list_elem_of_singleton in Hr as ->.
  apply list_bind_nil. intros q Hq. apply list_bind_nil. intros r2 Hr2.
  unfold pad2 in Hq. apply re_m_rests in Hq as [Hq|Hq];
    rewrite Hq in Hr2; unfold re_lit in Hr2.
  - rewrite decide_True in Hr2 by done.
    apply list_elem_of_singleton in Hr2 as ->. by rewrite HK.
  - destruct (digit_char_val m) as [w Hw].
    destruct (digit_val_not_sep _ _ Hw) as [Hne _].
    rewrite decide_False in Hr2 by done. by apply elem_of_nil in Hr2.
Qed.

Lemma strptime_nil s f :
  re_match f (mkdate 1900 1 1) s = [] → strptime s f = Raise ValueError.
Proof. unfold strptime. by intros ->. Qed.

Lemma strptime_fallback_short_year d :
  0 ≤ Py.year d < 1000 →
  strptime (strftime d fallback_fmt) date_fmt = Raise ValueError ∧
  strptime (strftime d fallback_fmt) fallback_fmt = Raise ValueError.
Proof.
  intros Hy. split; apply strptime_nil.
  - unfold date_fmt. cbn [strftime fallback_fmt re_match].
    by rewrite re_Y_pad2_sep.
  - unfold fallback_fmt. cbn [strftime].
    change (re_match (Dd :: ?f) ?d0 ?s) with
      (p ← re_d s; re_match f (mkdate (Py.year d0) (month d0) p.1) p.2).
    apply list_bind_nil. intros p Hp. unfold pad2 in Hp at 1.
    destruct (digit_char_val (day d / 10)) as [v Hv].
    destruct (digit_char_val (day d)) as [w Hw].
    apply (re_d_rests _ _ _ _ _ Hv) in Hp as [-> | ->].
    + apply fallback_tail_no_year, re_Y_short, Hy.
    + by apply (re_match_Lit_digit _ _ _ _ w).
Qed.

Lemma strptime_canonical_short_year d :
  0 ≤ Py.year d < 1000 →
  strptime (strftime d date_fmt) date_fmt = Raise ValueError ∧
  strptime (strftime d date_fmt) fallback_fmt = Raise ValueError.
Proof.
  intros Hy. split; apply strptime_nil.
  - unfold date_fmt. cbn [strftime re_match].
    by rewrite re_Y_short_sep.
  - unfold fallback_fmt, date_fmt. cbn [strftime].
    change (re_match (Dd :: ?f) ?d0 ?s) with
      (p ← re_d s; re_match f (mkdate (Py.year d0) (month d0) p.1) p.2).
    apply list_bind_nil. intros p Hp.
    assert (re_Y (pad2 (day d) "") = []) as HK by done.
    destruct (digit_char_val (month d / 10)) as [vm Hvm].
    destruct (decimal_short (Py.year d)
                (String "-" (pad2 (month d) (String "-" (pad2 (day d) ""))))
                Hy)
      as (a & va & Ha & [Hs|(b & vb & Hb & [Hs|(c & vc & Hc & Hs)])]);
      rewrite Hs in Hp;
      apply (re_d_rests _ _ _ _ _ Ha) in Hp as [-> | ->].
    + unfold pad2 at 1. by apply (re_match_Lit_digit _ _ _ _ vm).
    + by apply fallback_tail_no_year.
    + by apply fallback_tail_no_year.
    + by apply (re_match_Lit_digit _ _ _ _ vb).
    + by apply (re_match_Lit_digit _ _ _ _ vc).
    + by apply (re_match_Lit_digit _ _ _ _ vb).
Qed.

(** X4: no string is read by both formats, so [fell_back] is set exactly
    for the strings the legacy format reads. *)
Theorem X4_fell_back_iff_legacy_format s n :
  (strptime s date_fmt = Ok n → strptime s fallback_fmt = Raise ValueError) ∧
  (parses s n true ↔ strptime s fallback_fmt = Ok n).
Proof.
  split; [apply strptime_formats_disjoint|]. unfold parses. split; [tauto|].
  intros Hn. split; [|done].
  destruct (strptime_cases s date_fmt) as [[m Hm]|Hm]; [|done].
  apply strptime_formats_disjoint in Hm. congruence.
Qed.





(** ** Requests that never reach the store *)

Lemma get_readable_queries E C req kwargs v n fell_back r v' :
  memo v = ∅ → requested kwargs n fell_back →
  get E C req kwargs v = (r, v') → queries v' = S (queries v).
Proof.
  intros Hm Hreq Hget.
  destruct (get_object E C
              (mkview ((λ n, make_aware n (current_timezone E)) <$> n)
                 (object v) (memo v) (queries v))) as [[o|e] v1] eqn:Ho.
  - rewrite (get_located _ _ _ _ _ _ _ _ _ Hreq Ho) in Hget.
    injection Hget as <- <-. by apply get_object_fresh_queries in Ho.
  - rewrite (get_not_located _ _ _ _ _ _ _ _ _ Hreq Ho) in Hget.
    injection Hget as <- <-. by apply get_object_fresh_queries in Ho.
Qed.

(** X3: a request reaches the store exactly when its date is absent or
    one of the two formats reads it. A date neither format reads is
    answered 404 with the view untouched; every other request makes
    exactly one fetch. *)
Theorem X3_store_reached_iff_date_readable E C req kwargs v r v' :
  memo v = ∅ →
  get E C req kwargs v = (r, v') →
  let unreadable :=
    ∃ s, kwargs !! "date" = Some s ∧
         strptime s date_fmt = Raise ValueError ∧
         strptime s fallback_fmt = Raise ValueError in
  (unreadable → r = Raise (Http404 "") ∧ v' = v) ∧
  (¬ unreadable → queries v' = S (queries v)).
Proof.
  intros Hm Hget unreadable. split.
  - intros (s & Hs & H1 & H2).
    rewrite (get_unparseable E C req kwargs v s Hs H1 H2) in Hget.
    by injection Hget as <- <-.
  - intros Hreadable.
    assert (∃ n fb, requested kwargs n fb) as (n & fb & Hreq);
      [|by eapply get_readable_queries].
    unfold requested. destruct (kwargs !! "date") as [s|] eqn:Hs;
      [|by exists None, false].
    destruct (strptime_cases s date_fmt) as [[n Hn]|Hn].
    { by exists (Some n), false, n. }
    destruct (strptime_cases s fallback_fmt) as [[n Hn']|Hn'].
    { by exists (Some n), true, n. }
    destruct Hreadable. by exists s.
Qed.

Lemma X3_witness :
  get schedule ShowDetail req {["date" := "not-a-date"]} new_view =
    (Raise (Http404 ""), new_view) ∧
  queries (get schedule ShowDetail req {["date" := "2023-01-05"]}
             new_view).2 = 1%nat.
Proof.
  split.
  - destruct (X3_store_reached_iff_date_readable schedule ShowDetail req
                {["date" := "not-a-date"]} new_view
                (get schedule ShowDetail req {["date" := "not-a-date"]}
                   new_view).1
                (get schedule ShowDetail req {["date" := "not-a-date"]}
                   new_view).2 eq_refl) as [Hbad _].
    + vm_compute. reflexivity.
    + destruct Hbad as [Hr Hv].
      * exists "not-a-date". vm_compute. by split_and!.
      * vm_compute. reflexivity.
  - destruct (X3_store_reached_iff_date_readable schedule ShowDetail req
                {["date" := "2023-01-05"]} new_view
                (get schedule ShowDetail req {["date" := "2023-01-05"]}
                   new_view).1
                (get schedule ShowDetail req {["date" := "2023-01-05"]}
                   new_view).2 eq_refl) as [_ Hgood].
    + vm_compute. reflexivity.
    + apply Hgood. intros (s & Hs & Hiso & _).
      vm_compute in Hs. injection Hs as <-. vm_compute in Hiso. discriminate.
Defined.

(** ** The two mixins on a dated request *)

(** X7: when the request carries a date, [ThisShowDetailMixin] answers
    exactly as [ShowDetailMixin] does; the override of [get_object] shows
    only in requests without a date. *)
Theorem X7_mixins_agree_on_dated_requests E vn dc req kwargs s :
  kwargs !! "date" = Some s →
  (get E (mkconf ThisShowDetailMixin vn dc) req kwargs new_view).1 =
  (get E (mkconf ShowDetailMixin vn dc) req kwargs new_view).1.
Proof.
  intros Hs.
  assert ((∃ n fb, requested kwargs (Some n) fb) ∨
          (strptime s date_fmt = Raise ValueError ∧
           strptime s fallback_fmt = Raise ValueError)) as [(n & fb & Hreq)|[H1 H2]].
  { unfold requested. rewrite Hs.
    destruct (strptime_cases s date_fmt) as [[n Hn]|Hn].
    { left. by exists n, false, n. }
    destruct (strptime_cases s fallback_fmt) as [[n Hn']|Hn'].
    { left. by exists n, true, n. }
    by right. }
  - set (t := make_aware n (current_timezone E)).
    destruct (get_object E (mkconf ThisShowDetailMixin vn dc)
                (mkview (Some t) None ∅ 0)) as [r1 v1] eqn:Ho1.
    destruct (get_object E (mkconf ShowDetailMixin vn dc)
                (mkview (Some t) None ∅ 0)) as [r2 v2] eqn:Ho2.
    pose proof (get_object_dated_fresh _ _ _ _ _ _ _ Ho1) as Hr1.
    pose proof (get_object_dated_fresh _ _ _ _ _ _ _ Ho2) as Hr2.
    assert (r1 = r2) as <- by congruence. clear Hr1 Hr2.
    destruct r1 as [o|e].
    + by rewrite (get_located _ _ _ _ new_view _ _ _ _ Hreq Ho1),
        (get_located _ _ _ _ new_view _ _ _ _ Hreq Ho2).
    + by rewrite (get_not_located _ _ _ _ new_view _ _ _ _ Hreq Ho1),
        (get_not_located _ _ _ _ new_view _ _ _ _ Hreq Ho2).
  - by rewrite !(get_unparseable _ _ _ _ _ s).
Qed.

Lemma X7_witness :
  (get schedule (mkconf ThisShowDetailMixin None false) req
     {["date" := "2023-01-20"]} new_view).1 =
  (get schedule (mkconf ShowDetailMixin None false) req
     {["date" := "2023-01-20"]} new_view).1.
Proof.
  apply (X7_mixins_agree_on_dated_requests schedule None false req
           {["date" := "2023-01-20"]} "2023-01-20").
  reflexivity.
Defined.

(** ** The archive queryset and page *)

Lemma StronglySorted_filter {A} (R : relation A) (P : A → Prop)
    `{∀ x, Decision (P x)} (l : list A) :
  StronglySorted R l → StronglySorted R (filter P l).
Proof.
  induction 1 as [|x l Hl IH Hx]; [constructor|].
  destruct (decide (P x)).
  - rewrite filter_cons_True by done. constructor; [done|].
    rewrite Forall_forall in Hx |- *.
    intros y [_ Hy]%list_elem_of_filter. by apply Hx.
  - by rewrite filter_cons_False.
Qed.

Lemma elem_of_get_queryset E exclude_current x :
  x ∈ get_queryset E exclude_current ↔
  x ∈ objects E ∧ (exclude_current = true → pk x ≠ pk (model_current E)).
Proof.
  unfold get_queryset. destruct exclude_current.
  - rewrite list_elem_of_filter, elem_of_order_by. tauto.
  - rewrite elem_of_order_by. split; [by intros ?|tauto].
Qed.

Lemma get_queryset_Sorted E exclude_current :
  StronglySorted (λ a b, timestamp (showtime b) ≤ timestamp (showtime a))
    (get_queryset E exclude_current).
Proof.
  pose proof (order_by_Sorted (desc showtime) (objects E)) as Hs.
  assert (StronglySorted
            (λ a b, timestamp (showtime b) ≤ timestamp (showtime a))
            (order_by (desc showtime) (objects E))) as Hs'.
  { clear -Hs. induction Hs as [|x l Hl IH Hx]; constructor; [done|].
    eapply Forall_impl; [exact Hx|]. unfold desc. intros y Hy. simpl in Hy.
    lia. }
  unfold get_queryset. destruct exclude_current; [|done].
  by apply StronglySorted_filter.
Qed.

(** X8: the archive queryset holds exactly the rows of the table, less
    every row with the primary key of the current show when
    [exclude_current] is set, latest showtime first. *)
Theorem X8_get_queryset_rows_and_order E exclude_current :
  (∀ x, x ∈ get_queryset E exclude_current ↔
        x ∈ objects E ∧
        (exclude_current = true → pk x ≠ pk (model_current E))) ∧
  StronglySorted (λ a b, timestamp (showtime b) ≤ timestamp (showtime a))
    (get_queryset E exclude_current).
Proof.
  split; [apply elem_of_get_queryset|apply get_queryset_Sorted].
Qed.

(** X9: when the archive page is built, the year it shows is one of the
    listed years, its list of shows is not empty and holds exactly the
    shows of the queryset whose showtime falls in that year, latest
    first. *)
Theorem X9_archive_page_lists_the_year E exclude_current kwargs context :
  ArchiveList_get_context_data E exclude_current kwargs = Ok context →
  get_years E exclude_current = Ok (ctx_years context) ∧
  year E exclude_current kwargs = Ok (ctx_year context) ∧
  ctx_year context ∈ ctx_years context ∧
  ctx_object_list context ≠ [] ∧
  (∀ s, s ∈ ctx_object_list context ↔
        s ∈ get_queryset E exclude_current ∧
        showtime__year E s = ctx_year context) ∧
  StronglySorted (λ a b, timestamp (showtime b) ≤ timestamp (showtime a))
    (ctx_object_list context).
Proof.
  unfold ArchiveList_get_context_data.
  destruct (get_years E exclude_current) as [years|] eqn:Hyears; [|done].
  destruct (year E exclude_current kwargs) as [y|] eqn:Hy; [|done].
  intros [= <-]. cbn [ctx_years ctx_year ctx_object_list].
  assert (y ∈ years) as Hin.
  { unfold year in Hy. destruct (match kwargs !! "year" with
                                 | Some s => _ | None => _ end).
    - destruct (int s) as [y0|]; [|done]. rewrite Hyears in Hy.
      case_bool_decide; by simplify_eq.
    - destruct (latest _ _) as [e|]; [|done]. rewrite Hyears in Hy.
      case_bool_decide; by simplify_eq. }
  assert (∀ s, s ∈ filter (λ s, showtime__year E s = y)
                      (get_queryset E exclude_current) ↔
               s ∈ get_queryset E exclude_current ∧ showtime__year E s = y)
    as Hel by (intros s; rewrite list_elem_of_filter; tauto).
  split_and!; [done..| |done|].
  - rewrite get_years_native in Hyears. injection Hyears as <-.
    apply native_years_spec in Hin as (s & Hs & Hsy).
    intros Hnil. assert (s ∈ filter (λ s, showtime__year E s = y)
                               (get_queryset E exclude_current)) as Hs'
      by by apply Hel.
    rewrite Hnil in Hs'. by apply elem_of_nil in Hs'.
  - apply StronglySorted_filter, get_queryset_Sorted.
Qed.

Lemma X9_witness :
  get_years schedule true = Ok [2023] ∧
  year schedule true ∅ = Ok 2023 ∧
  2023 ∈ [2023] ∧
  [feb10; jan5] ≠ [] ∧
  (∀ s, s ∈ [feb10; jan5] ↔
        s ∈ get_queryset schedule true ∧ showtime__year schedule s = 2023) ∧
  StronglySorted (λ a b, timestamp (showtime b) ≤ timestamp (showtime a))
    [feb10; jan5].
Proof.
  apply (X9_archive_page_lists_the_year schedule true ∅
           (mkarchive_context [2023] 2023 [feb10; jan5])).
  vm_compute. reflexivity.
Defined.

(** X10: when no year is requested, or an empty one, and the archive
    queryset is empty, as it is while the only show is the current one,
    [year] and with it the archive page end in [DoesNotExist], not in a
    404. *)
Theorem X10_empty_archive_raises_DoesNotExist E exclude_current kwargs :
  kwargs !! "year" = None ∨ kwargs !! "year" = Some "" →
  get_queryset E exclude_current = [] →
  year E exclude_current kwargs = Raise DoesNotExist ∧
  ArchiveList_get_context_data E exclude_current kwargs = Raise DoesNotExist.
Proof.
  intros Hk Hnil.
  assert (year E exclude_current kwargs = Raise DoesNotExist) as Hy.
  { unfold year, latest. rewrite Hnil. by destruct Hk as [->| ->]. }
  split; [done|]. unfold ArchiveList_get_context_data.
  by rewrite get_years_native, Hy.
Qed.

Lemma X10_witness :
  year premiere true ∅ = Raise DoesNotExist ∧
  ArchiveList_get_context_data premiere true ∅ = Raise DoesNotExist.
Proof.
  apply X10_empty_archive_raises_DoesNotExist; [by left|].
  vm_compute. reflexivity.
Defined.

(** X11: a year named in the request is accepted exactly when some show
    of the archive queryset has its showtime in that year; otherwise the
    answer is the 404 with the message about that year. *)
Theorem X11_requested_year_accepted_iff_has_shows
    E exclude_current kwargs s y :
  kwargs !! "year" = Some s → s ≠ "" → int s = Ok y →
  (year E exclude_current kwargs = Ok y ↔
   ∃ e, e ∈ get_queryset E exclude_current ∧ showtime__year E e = y) ∧
  (year E exclude_current kwargs = Ok y ∨
   year E exclude_current kwargs = Raise (Http404 no_shows_msg)).
Proof.
  intros Hk Hs Hint. unfold year.
  rewrite Hk, decide_False, Hint, get_years_native by done.
  rewrite <- (proj2 (native_years_spec E exclude_current)).
  case_bool_decide; split; [done|by left|split; [done|by intros ?]|by right].
Qed.

Lemma X11_witness :
  (year schedule true {["year" := "2023"]} = Ok 2023 ↔
   ∃ e, e ∈ get_queryset schedule true ∧ showtime__year schedule e = 2023) ∧
  (year schedule true {["year" := "2023"]} = Ok 2023 ∨
   year schedule true {["year" := "2023"]} = Raise (Http404 no_shows_msg)).
Proof.
  apply (X11_requested_year_accepted_iff_has_shows schedule true
           {["year" := "2023"]} "2023" 2023).
  - reflexivity.
  - discriminate.
  - vm_compute. reflexivity.
Defined.

(** ** Looking up a Twitter user *)

Lemma head_users_order_by key l :
  l ≠ [] →
  ∃ e, head (users_order_by key l) = Some e ∧ e ∈ l ∧
       ∀ x, x ∈ l → key e ≤ key x.
Proof.
  induction l as [|x l IH]; [done|]. intros _. cbn [users_order_by].
  destruct l as [|y l].
  - exists x. split_and!; [done|by left|]. intros z ->%list_elem_of_singleton.
    lia.
  - destruct IH as (e & He & Hin & Hmin); [done|].
    destruct (users_order_by key (y :: l)) as [|h t]; [done|].
    injection He as ->. cbn [insert_user_by].
    destruct (key x <=? key e) eqn:Hxe.
    + apply Z.leb_le in Hxe. exists x. split_and!; [done|by left|].
      intros z [->|Hz]%elem_of_cons; [lia|]. specialize (Hmin _ Hz). lia.
    + apply Z.leb_gt in Hxe. exists e. split_and!; [done|by right|].
      intros z [->|Hz]%elem_of_cons; [lia|]. by apply Hmin.
Qed.

Lemma TwitterUser_by_screen_name D kwargs name :
  kwargs !! "user_id" = None ∨ kwargs !! "user_id" = Some "" →
  kwargs !! "screen_name" = Some name →
  let matching :=
    filter (λ u, screen_name__iexact D name u = true) (users D) in
  (TwitterUserDetailMixin__get_object D (mkuser_view kwargs ∅)).1 =
  if bool_decide (matching = []) then Raises (Std (Http404 ""))
  else
    match
      (if Nat.eqb (List.length matching) 1 then head matching
       else head (users_order_by (λ u, - timestamp (updated u)) matching))
    with
    | None => Raises (Std IndexError)
    | Some user =>
        if vote_set_exists user then Returns user
        else Raises (Std (Http404 ""))
    end.
Proof.
  intros Hid Hname matching.
  unfold TwitterUserDetailMixin__get_object, memoize_user.
  cbn [uv_memo uv_kwargs]. rewrite lookup_empty, Hname.
  fold matching.
  set (r := if bool_decide (matching = []) then _ else _).
  assert (match kwargs !! "user_id" with
          | Some s =>
              if decide (s = "") then r
              else get_object_or_404
                     (filter (λ u, user_id_is D s u = true) (users D))
          | None => r
          end = r) as ->.
  { by destruct Hid as [->| ->]. }
  by destruct r.
Qed.

(** X12: looked up by screen name, the user returned is the most
    recently updated of the users whose screen name matches, and has
    votes; the lookup otherwise ends in a 404. In particular it ends in
    a 404 when the most recently updated namesake has no votes, whatever
    votes older namesakes have. *)
Theorem X12_user_by_screen_name_is_latest_with_votes D kwargs name :
  kwargs !! "user_id" = None ∨ kwargs !! "user_id" = Some "" →
  kwargs !! "screen_name" = Some name →
  let r := (TwitterUserDetailMixin__get_object D (mkuser_view kwargs ∅)).1 in
  (∀ u, r = Returns u →
     u ∈ users D ∧ screen_name__iexact D name u = true ∧
     vote_set_exists u = true ∧
     ∀ x, x ∈ users D → screen_name__iexact D name x = true →
          timestamp (updated x) ≤ timestamp (updated u)) ∧
  ((∃ u, r = Returns u) ∨ r = Raises (Std (Http404 ""))) ∧
  (∀ u, u ∈ users D → screen_name__iexact D name u = true →
     vote_set_exists u = false →
     (∀ x, x ∈ users D → x ≠ u → screen_name__iexact D name x = true →
           timestamp (updated x) < timestamp (updated u)) →
     r = Raises (Std (Http404 ""))).
Proof.
  intros Hid Hname r. subst r.
  rewrite (TwitterUser_by_screen_name D kwargs name Hid Hname).
  set (matching := filter _ (users D)).
  assert (∀ x, x ∈ matching ↔
               screen_name__iexact D name x = true ∧ x ∈ users D) as Hel
    by (intros x; unfold matching; rewrite list_elem_of_filter; tauto).
  case_bool_decide as Hnil.
  { split_and!; [done|by right|done]. }
  assert (∃ e, (if Nat.eqb (List.length matching) 1 then head matching
                else head (users_order_by (λ u, - timestamp (updated u))
                             matching)) = Some e ∧
               e ∈ matching ∧
               ∀ x, x ∈ matching →
                    timestamp (updated x) ≤ timestamp (updated e))
    as (e & -> & He & Hmax).
  { destruct (Nat.eqb (List.length matching) 1) eqn:Hlen.
    - apply Nat.eqb_eq in Hlen. destruct matching as [|e [|??]]; try done.
      exists e. split_and!; [done|by left|].
      intros x ->%list_elem_of_singleton. lia.
    - destruct (head_users_order_by (λ u, - timestamp (updated u)) matching
                  Hnil) as (e & He & Hin & Hmin).
      exists e. split_and!; [done..|]. intros x Hx.
      specialize (Hmin x Hx). simpl in Hmin. lia. }
  apply Hel in He as [Hname_e Hin_e]. split_and!.
  - destruct (vote_set_exists e) eqn:Hv; [|done]. intros u [= <-].
    split_and!; [done..|]. intros x Hx Hnx. apply Hmax, Hel. done.
  - destruct (vote_set_exists e); [left; eauto|by right].
  - intros u Hu Hnu Hvu Hlatest.
    assert (e = u) as ->.
    { destruct (decide (e = u)) as [|Hne]; [done|].
      specialize (Hlatest e Hin_e Hne Hname_e).
      assert (u ∈ matching) as Hum by by apply Hel.
      specialize (Hmax u Hum). lia. }
    by rewrite Hvu.
Qed.

Lemma X12_witness :
  (TwitterUserDetailMixin__get_object accounts
     (mkuser_view {["screen_name" := "COLONS"]} ∅)).1 =
  Raises (Std (Http404 "")).
Proof.
  destruct (X12_user_by_screen_name_is_latest_with_votes accounts
              {["screen_name" := "COLONS"]} "COLONS") as (_ & _ & Hlatest).
  - by left.
  - reflexivity.
  - apply (Hlatest new_account).
    + apply list_elem_of_In. vm_compute. tauto.
    + vm_compute. reflexivity.
    + reflexivity.
    + intros x Hx%list_elem_of_In Hne _. vm_compute in Hx.
      destruct Hx as [<-|[<-|[]]]; [|done]. vm_compute. reflexivity.
Defined.

(** X13: looked up by a non-empty [user_id], a user is returned exactly
    when it is the one row with that id, and then whether or not it has
    votes and whatever screen name the request carries; no row gives the
    404 of [get_object_or_404], several rows give
    [MultipleObjectsReturned]. *)
Theorem X13_user_by_id_needs_no_votes D kwargs s :
  kwargs !! "user_id" = Some s → s ≠ "" →
  let r := (TwitterUserDetailMixin__get_object D (mkuser_view kwargs ∅)).1 in
  let matching := filter (λ u, user_id_is D s u = true) (users D) in
  (∀ u, r = Returns u ↔ matching = [u]) ∧
  (r = Raises (Std (Http404 "No TwitterUser matches the given query.")) ↔
   matching = []) ∧
  (r = Raises MultipleObjectsReturned ↔ (2 ≤ List.length matching)%nat).
Proof.
  intros Hid Hs r matching. subst r.
  unfold TwitterUserDetailMixin__get_object, memoize_user.
  cbn [uv_memo uv_kwargs]. rewrite lookup_empty, Hid, decide_False by done.
  fold matching. destruct matching as [|u [|u' l]]; cbn.
  - split_and!; [by intros u|done|]. split; [done|lia].
  - split_and!; [|done|].
    + intros u0. split; [by intros [= ->]|by intros [= ->]].
    + split; [done|lia].
  - split_and!; [by intros u0|done|]. split; [lia|done].
Qed.

Lemma X13_witness :
  (TwitterUserDetailMixin__get_object accounts
     (mkuser_view {["user_id" := "8"; "screen_name" := "nobody"]} ∅)).1 =
  Returns new_account ∧ vote_set_exists new_account = false.
Proof.
  destruct (X13_user_by_id_needs_no_votes accounts
              {["user_id" := "8"; "screen_name" := "nobody"]} "8")
    as (Hone & _ & _); [reflexivity|discriminate|].
  split; [|reflexivity]. apply Hone. vm_compute. reflexivity.
Defined.

(** ** The forms *)

Lemma lstrip_at_no_at address rest : lstrip_at address ≠ String "@" rest.
Proof.
  induction address as [|c address IH]; [done|].
  cbn [lstrip_at]. destruct (decide (c = "@"%char)) as [->|Hc]; [done|].
  intros [= ? _]. done.
Qed.

Lemma filled_two cleaned_data :
  (2 ≤ List.length (filled cleaned_data))%nat ↔
  ∃ f g x y, f ≠ g ∧ (f ∉ compulsory) ∧ (g ∉ compulsory) ∧
             cleaned_data !! f = Some x ∧ x ≠ "" ∧
             cleaned_data !! g = Some y ∧ y ≠ "".
Proof.
  unfold filled.
  set (m := filter _ cleaned_data).
  assert (∀ f x, (f, x) ∈ map_to_list m ↔
                 cleaned_data !! f = Some x ∧ (f ∉ compulsory) ∧ x ≠ "") as Hel.
  { intros f x. rewrite elem_of_map_to_list. unfold m.
    rewrite map_lookup_filter_Some. done. }
  pose proof (NoDup_fst_map_to_list m) as Hnd.
  destruct (map_to_list m) as [|[f x] [|[g y] l]]; cbn.
  - split; [lia|]. intros (f & g & x & y & _ & Hf & _ & Hx & Hxn & _).
    assert ((f, x) ∈ []) as Hin by by apply Hel. by apply elem_of_nil in Hin.
  - split; [lia|].
    intros (f' & g' & x' & y' & Hne & Hf & Hg & Hx & Hxn & Hy & Hyn).
    assert ((f', x') ∈ [(f, x)]) as Hin1 by by apply Hel.
    assert ((g', y') ∈ [(f, x)]) as Hin2 by by apply Hel.
    apply list_elem_of_singleton in Hin1, Hin2. congruence.
  - split; [|lia]. intros _.
    destruct (proj1 (Hel f x)) as (Hx & Hf & Hxn); [by left|].
    destruct (proj1 (Hel g y)) as (Hy & Hg & Hyn); [by right; left|].
    exists f, g, x, y. split_and!; try done.
    cbn in Hnd. apply NoDup_cons in Hnd as [Hnd _]. intros ->.
    apply Hnd. by left.
Qed.

(** X14: a contact that Django does not accept as an e-mail address is
    validated as a Twitter name, and a leading [@] makes no difference
    to it: Twitter is asked once, about the screen name without its
    leading [@] signs, and the contact is accepted exactly when Twitter
    knows that name. *)
Theorem X14_leading_at_is_ignored validate_email get_user address asked :
  validate_email address = false →
  validate_email (String "@" address) = false →
  email_or_twitter validate_email get_user (String "@" address) asked =
  email_or_twitter validate_email get_user address asked ∧
  ∃ name,
    (email_or_twitter validate_email get_user address asked).2 =
    asked ++ [name] ∧
    (∀ rest, name ≠ String "@" rest) ∧
    ((email_or_twitter validate_email get_user address asked).1 = Returns tt
     ↔ get_user name = true).
Proof.
  intros Ha Hat. unfold email_or_twitter. rewrite Ha, Hat.
  split; [done|]. exists (lstrip_at address).
  destruct (get_user (lstrip_at address)) eqn:Hg; cbn [fst snd].
  - split_and!; [done|apply lstrip_at_no_at|done].
  - split_and!; [done|apply lstrip_at_no_at|]. split; [done|]. done.
Qed.

Lemma X14_witness :
  email_or_twitter (λ _, false) (String.eqb "colons") "@colons" [] =
  email_or_twitter (λ _, false) (String.eqb "colons") "colons" [].
Proof.
  apply (X14_leading_at_is_ignored (λ _, false) (String.eqb "colons")
           "colons" []); reflexivity.
Defined.

(** X15: [RequestForm.clean] hands the data back, unchanged, exactly when
    two different fields other than the trivia answer, the trivia
    question and the contact hold a non-empty value; every other form is
    rejected with its one message, whatever the compulsory fields
    hold. *)
Theorem X15_request_needs_two_details cleaned_data :
  (RequestForm_clean cleaned_data = Returns cleaned_data ↔
   ∃ f g x y, f ≠ g ∧ (f ∉ compulsory) ∧ (g ∉ compulsory) ∧
              cleaned_data !! f = Some x ∧ x ≠ "" ∧
              cleaned_data !! g = Some y ∧ y ≠ "") ∧
  (RequestForm_clean cleaned_data = Returns cleaned_data ∨
   RequestForm_clean cleaned_data =
   Raises (ValidationError
             ["I'm sure you can give us more information than that."])).
Proof.
  rewrite <- filled_two. unfold RequestForm_clean.
  destruct (List.length (filled cleaned_data) <? 2)%nat eqn:Hlen.
  - apply Nat.ltb_lt in Hlen. split; [|by right]. split; [done|lia].
  - apply Nat.ltb_ge in Hlen. split; [|by left]. done.
Qed.

(** X16: what the compulsory fields hold never changes the verdict of
    [RequestForm.clean]. *)
Theorem X16_compulsory_fields_do_not_count cleaned_data f v :
  f ∈ compulsory →
  (∃ d, RequestForm_clean (<[f := v]> cleaned_data) = Returns d) ↔
  (∃ d, RequestForm_clean cleaned_data = Returns d).
Proof.
  intros Hf.
  assert (∀ d, (∃ d', RequestForm_clean d = Returns d') ↔
               (2 ≤ List.length (filled d))%nat) as Hok.
  { intros d. unfold RequestForm_clean.
    destruct (List.length (filled d) <? 2)%nat eqn:Hlen.
    - apply Nat.ltb_lt in Hlen. split; [by intros [??]|lia].
    - apply Nat.ltb_ge in Hlen. split; [done|eauto]. }
  rewrite !Hok, !filled_two.
  assert (∀ g, (g ∉ compulsory) → (<[f := v]> cleaned_data) !! g =
                                 cleaned_data !! g) as Hlk.
  { intros g Hg. apply lookup_insert_ne. intros ->. done. }
  split; intros (g & h & x & y & Hne & Hg & Hh & Hx & Hxn & Hy & Hyn);
    exists g, h, x, y; split_and!; try done.
  - by rewrite <- Hlk.
  - by rewrite <- Hlk.
  - by rewrite Hlk.
  - by rewrite Hlk.
Qed.

Lemma X16_witness :
  (∃ d, RequestForm_clean (<["contact" := ""]> title_and_artist) = Returns d)
  ↔ (∃ d, RequestForm_clean title_and_artist = Returns d).
Proof.
  apply (X16_compulsory_fields_do_not_count title_and_artist "contact" "").
  apply list_elem_of_In. vm_compute. tauto.
Defined.
